(** * WM-Scraper: a shallow embedding of [scraper.ts] and [classes/Class.ts]

    The development follows the latest snapshot of the sources (the one
    with the [ScraperError] class, [getTermsAndSubjects], [getCourseData]
    and the [Class] whose [status] setter has the [undefined] guard).

    - [JS] models the fragment of JavaScript the code relies on: values,
      truthiness, [trim], the [/(\r\n|\n|\r)/gm] replacement, [split],
      [toString] and [parseInt].
    - [Course] is the [Class] class: one setter per field and the
      constructor that chains them.
    - [Scraper] is the scraper object together with the world it acts on
      (clock, network, file system), in a state-and-exception monad. *)

From Stdlib Require Import ZArith String Ascii List Lia Bool.
From Stdlib Require Import DecimalString DecimalZ DecimalPos.
From stdpp Require Import gmap strings.
Import ListNotations.

Open Scope Z_scope.

(* ===================================================================== *)
(** ** The JavaScript fragment                                           *)
(* ===================================================================== *)

Module JS.

(** Strings are sequences of code units; the model keeps the units
    0..255, which covers every character the code tests for. *)
Definition code (c : ascii) : Z := Z.of_N (N_of_ascii c).

(** The characters matched by [/(\r\n|\n|\r)/gm]. *)
Definition isLineBreak (c : ascii) : bool :=
  (code c =? 10) || (code c =? 13).

(** [WhiteSpace] and [LineTerminator] of ECMAScript below U+0100: TAB, LF,
    VT, FF, CR, SP and NBSP.  These are what [trim] and [parseInt] skip. *)
Definition isWhiteSpace (c : ascii) : bool :=
  let n := code c in
  (n =? 9) || (n =? 10) || (n =? 11) || (n =? 12) || (n =? 13)
  || (n =? 32) || (n =? 160).

(** [s.replace(/(\r\n|\n|\r)/gm, "")]: every CR and every LF goes. *)
Fixpoint removeLineBreaks (s : string) : string :=
  match s with
  | EmptyString => EmptyString
  | String c r =>
      if isLineBreak c then removeLineBreaks r
      else String c (removeLineBreaks r)
  end.

Fixpoint trimStart (s : string) : string :=
  match s with
  | EmptyString => EmptyString
  | String c r => if isWhiteSpace c then trimStart r else s
  end.

Fixpoint trimEnd (s : string) : string :=
  match s with
  | EmptyString => EmptyString
  | String c r =>
      match trimEnd r with
      | EmptyString => if isWhiteSpace c then EmptyString else String c EmptyString
      | t => String c t
      end
  end.

Definition trim (s : string) : string := trimEnd (trimStart s).

(** [s.replace(x, "")] with a one-character string pattern [x]: only the
    first occurrence is removed. *)
Fixpoint removeFirst (x : ascii) (s : string) : string :=
  match s with
  | EmptyString => EmptyString
  | String c r => if Ascii.eqb c x then r else String c (removeFirst x r)
  end.

(** [s.replaceAll(pat, repl)] with a non-empty string pattern: the
    occurrences of [pat] are found from left to right without overlap.
    [skip] counts the characters of an occurrence still to be passed. *)
Fixpoint replaceAllFrom (pat repl : string) (skip : nat) (s : string) : string :=
  match s with
  | EmptyString => EmptyString
  | String c r =>
      match skip with
      | S k => replaceAllFrom pat repl k r
      | O =>
          if String.prefix pat s
          then (repl ++ replaceAllFrom pat repl (String.length pat - 1) r)%string
          else String c (replaceAllFrom pat repl 0 r)
      end
  end.

Definition replaceAll (pat repl : string) (s : string) : string :=
  replaceAllFrom pat repl 0 s.

(** [s.split(x)] with a one-character separator; the result is never
    empty (["".split(",")] is [[""]]). *)
Fixpoint split (x : ascii) (s : string) : list string :=
  match s with
  | EmptyString => [EmptyString]
  | String c r =>
      if Ascii.eqb c x then EmptyString :: split x r
      else match split x r with
           | h :: t => String c h :: t
           | [] => [String c EmptyString]
           end
  end.

Fixpoint endsWith (s suffix : string) : bool :=
  String.eqb s suffix ||
  match s with
  | EmptyString => false
  | String _ r => endsWith r suffix
  end.

(** *** Numbers

    Every number the code stores is the result of [parseInt], hence an
    integer or [NaN].  Integers are kept exact (no rounding to doubles,
    and [-0] is [0]). *)
Inductive Num : Type :=
  | NaN
  | Int (z : Z).


(** [Number.prototype.toString()] on an integer: its decimal numeral. *)
Definition Z_toString (z : Z) : string := NilZero.string_of_int (Z.to_int z).

Definition Num_toString (n : Num) : string :=
  match n with
  | NaN => "NaN"
  | Int z => Z_toString z
  end.

(** Value of a digit in the given radix (10 or 16). *)
Definition digitVal (radix : Z) (c : ascii) : option Z :=
  let n := code c in
  if (48 <=? n) && (n <=? 57) then Some (n - 48)
  else if (radix =? 16) && (97 <=? n) && (n <=? 102) then Some (n - 87)
  else if (radix =? 16) && (65 <=? n) && (n <=? 70) then Some (n - 55)
  else None.

(** Longest prefix of digits, read left to right. *)
Fixpoint parseDigits (radix : Z) (s : string) (acc : Z) : Z :=
  match s with
  | EmptyString => acc
  | String c r =>
      match digitVal radix c with
      | Some d => parseDigits radix r (acc * radix + d)
      | None => acc
      end
  end.

Definition parseMagnitude (radix : Z) (s : string) : Num :=
  match s with
  | EmptyString => NaN
  | String c _ =>
      match digitVal radix c with
      | Some _ => Int (parseDigits radix s 0)
      | None => NaN
      end
  end.

(** [parseInt(s)] without a radix: leading white space is skipped, a sign
    is read, a [0x]/[0X] prefix selects radix 16, then the longest prefix
    of digits is taken; without any digit the result is [NaN]. *)
Definition parseInt (s : string) : Num :=
  let s1 := trimStart s in
  let '(neg, s2) :=
    match s1 with
    | String "-" r => (true, r)
    | String "+" r => (false, r)
    | _ => (false, s1)
    end in
  let '(radix, s3) :=
    match s2 with
    | String "0" (String x r) =>
        if Ascii.eqb x "x" || Ascii.eqb x "X" then (16, r) else (10, s2)
    | _ => (10, s2)
    end in
  match parseMagnitude radix s3 with
  | NaN => NaN
  | Int m => Int (if neg then - m else m)
  end.

(** *** Values *)
#[local] Unset Elimination Schemes.
Inductive JsVal : Type :=
  | VUndef
  | VNull
  | VBool (b : bool)
  | VNum (n : Num)
  | VStr (s : string)
  | VArr (l : list JsVal)
  | VObj (fields : list (string * JsVal)).
#[local] Set Elimination Schemes.

(** [ToBoolean]. *)
Definition truthy (v : JsVal) : bool :=
  match v with
  | VUndef | VNull => false
  | VBool b => b
  | VNum NaN => false
  | VNum (Int z) => negb (z =? 0)
  | VStr s => negb (String.eqb s "")
  | VArr _ | VObj _ => true
  end.

(** [ToString], as used by template literals, by [==] on arrays and by the
    [toString()] method of every value that has one.  Plain objects print
    as ["[object Object]"]; objects that carry a [toString] property of
    their own are outside the model. *)
Fixpoint ToString (v : JsVal) : string :=
  match v with
  | VUndef => "undefined"
  | VNull => "null"
  | VBool true => "true"
  | VBool false => "false"
  | VNum n => Num_toString n
  | VStr s => s
  | VArr l =>
      String.concat ","
        (map (fun x => match x with
                       | VUndef | VNull => EmptyString
                       | _ => ToString x
                       end) l)
  | VObj _ => "[object Object]"
  end.

(** [v == null] / [v == undefined]. *)
Definition isNullish (v : JsVal) : bool :=
  match v with
  | VUndef | VNull => true
  | _ => false
  end.

(** [v == lit] for a string literal [lit] that is not a numeral (so that
    [ToNumber lit] is [NaN], as for ['OPEN'] and ['CLOSED']): a string is
    compared as such, a boolean or a number never equals it, an array or
    object is converted with [ToString] first. *)
Definition looseEqWord (v : JsVal) (lit : string) : bool :=
  match v with
  | VStr s => String.eqb s lit
  | VUndef | VNull | VBool _ | VNum _ => false
  | VArr _ | VObj _ => String.eqb (ToString v) lit
  end.

(** [o[k]]: property read.  Reading from [undefined] or [null] throws
    (the caller handles that); arrays, strings, numbers and booleans
    have none of the underscore-named properties the code reads. *)
Fixpoint lookupField (k : string) (fields : list (string * JsVal)) : JsVal :=
  match fields with
  | [] => VUndef
  | (k', v) :: r => if String.eqb k' k then v else lookupField k r
  end.

(** What [JSON.stringify] keeps of a value: [NaN] becomes [null],
    [undefined] becomes [null] inside arrays and is dropped from objects. *)
Fixpoint toJSON (v : JsVal) : option JsVal :=
  match v with
  | VUndef => None
  | VNum NaN => Some VNull
  | VArr l =>
      Some (VArr (map (fun x => match toJSON x with
                                | Some j => j
                                | None => VNull
                                end) l))
  | VObj fields =>
      Some (VObj
        ((fix go (fs : list (string * JsVal)) : list (string * JsVal) :=
            match fs with
            | [] => []
            | (k, x) :: r =>
                match toJSON x with
                | Some j => (k, j) :: go r
                | None => go r
                end
            end) fields))
  | _ => Some v
  end.

(** *** Regular expressions

    The fragment without back-references or look-around, where a match
    of the whole input ([^...$], no [m] flag) is membership in a regular
    language.  [test] decides it by derivatives. *)
Inductive RegExp : Type :=
  | RNone
  | REps
  | RChar (p : ascii -> bool)
  | RCat (r1 r2 : RegExp)
  | RAlt (r1 r2 : RegExp)
  | RStar (r : RegExp).

(** [r+], [r?] and a literal. *)
Definition RPlus (r : RegExp) : RegExp := RCat r (RStar r).
Definition ROpt (r : RegExp) : RegExp := RAlt REps r.
Fixpoint RLit (s : string) : RegExp :=
  match s with
  | EmptyString => REps
  | String c r => RCat (RChar (Ascii.eqb c)) (RLit r)
  end.

Fixpoint nullable (r : RegExp) : bool :=
  match r with
  | RNone => false
  | REps => true
  | RChar _ => false
  | RCat r1 r2 => nullable r1 && nullable r2
  | RAlt r1 r2 => nullable r1 || nullable r2
  | RStar _ => true
  end.

Fixpoint deriv (c : ascii) (r : RegExp) : RegExp :=
  match r with
  | RNone => RNone
  | REps => RNone
  | RChar p => if p c then REps else RNone
  | RCat r1 r2 =>
      if nullable r1
      then RAlt (RCat (deriv c r1) r2) (deriv c r2)
      else RCat (deriv c r1) r2
  | RAlt r1 r2 => RAlt (deriv c r1) (deriv c r2)
  | RStar r1 => RCat (deriv c r1) (RStar r1)
  end.

(** [/^r$/.test(s)] *)
Fixpoint test (r : RegExp) (s : string) : bool :=
  match s with
  | EmptyString => nullable r
  | String c rest => test (deriv c r) rest
  end.

(** The character classes of the user-agent pattern, and [.]. *)
Definition isAlpha (c : ascii) : bool :=
  let n := code c in
  ((97 <=? n) && (n <=? 122)) || ((65 <=? n) && (n <=? 90)).

Definition isAlnum (c : ascii) : bool :=
  isAlpha c || ((48 <=? code c) && (code c <=? 57)).

Definition anyChar (c : ascii) : bool := negb (isLineBreak c).

End JS.
Export JS.

(* ===================================================================== *)
(** ** Errors and results                                                *)
(* ===================================================================== *)

Inductive Error : Type :=
  | TypeError
      (* a property read or method call the receiver does not support *)
  | StatusError
      (* Error('Incorrect status type. Must be OPEN or CLOSED.') *)
  | ScraperError (msg : string)
      (* class ScraperError *)
  | LoadError
      (* Error(`Error loading JSON file: ${e}`) *)
  | FetchError
      (* the rejection of node-fetch's promise *)
  | FsError.
      (* what readFileSync throws for a file it cannot read *)

Inductive Result (A : Type) : Type :=
  | Ok (a : A)
  | Throw (e : Error).
Arguments Ok {A} a.
Arguments Throw {A} e.

Definition rbind {A B} (r : Result A) (k : A -> Result B) : Result B :=
  match r with
  | Ok a => k a
  | Throw e => Throw e
  end.

Declare Scope result_scope.
Delimit Scope result_scope with result.
Notation "'do' x <- r ; k" := (rbind r (fun x => k))
  (at level 10, x name, r at level 100, k at level 200) : result_scope.

Fixpoint mapR {A B} (f : A -> Result B) (l : list A) : Result (list B) :=
  match l with
  | [] => Ok []
  | a :: r =>
      rbind (f a) (fun b => rbind (mapR f r) (fun bs => Ok (b :: bs)))
  end.

(* ===================================================================== *)
(** ** [classes/Class.ts]                                                *)
(* ===================================================================== *)

Module Course.

Open Scope result_scope.

(** The private fields of [Class].  [_credits] is a number or [null];
    [_status] holds whatever value the setter let through. *)
Record ClassObj : Type := mkClass {
  _crn : Num;
  _courseID : string;
  _attributes : list string;
  _title : string;
  _instructor : string;
  _credits : option Num;
  _times : string;
  _projectedEnrollment : Num;
  _currentEnrollment : Num;
  _seatsAvailable : Num;
  _status : JsVal
}.

(** [x.replace(/(\r\n|\n|\r)/gm, "").trim()] *)
Definition clean (s : string) : string := trim (removeLineBreaks s).

(** The receiver of [.replace(...)]: only strings have that method. *)
Definition asString (v : JsVal) : Result string :=
  match v with
  | VStr s => Ok s
  | _ => Throw TypeError
  end.

(** The receiver of [.toString()]: everything but [undefined] and [null]. *)
Definition toStringOf (v : JsVal) : Result string :=
  if isNullish v then Throw TypeError else Ok (ToString v).

(** [id ? id.replace(...).trim() : ''], shared by [courseID], [title],
    [instructor] and [times]. *)
Definition cleanOrEmpty (v : JsVal) : Result string :=
  if truthy v then do s <- asString v; Ok (clean s) else Ok EmptyString.

(** [parseInt(x.toString().replace(...).trim())], shared by
    [projectedEnrollment] and [currentEnrollment]. *)
Definition cleanInt (v : JsVal) : Result Num :=
  do s <- toStringOf v; Ok (parseInt (clean s)).

(** One function per setter: the value it stores, or the error it throws. *)
Definition crn_value (id : JsVal) : Result Num :=
  do s <- asString id; Ok (parseInt (clean s)).

Definition attributes_value (attributes : JsVal) : Result (list string) :=
  match attributes with
  | VArr l => mapR (fun a => do s <- asString a; Ok (clean s)) l
  | _ => Throw TypeError
  end.

Definition credits_value (credits : JsVal) : Result (option Num) :=
  match credits with
  | VNull => Ok None
  | _ => do n <- cleanInt credits; Ok (Some n)
  end.

Definition seatsAvailable_value (seatsAvailable : JsVal) : Result Num :=
  do s <- toStringOf seatsAvailable;
  Ok (parseInt (trim (removeFirst "*" (removeLineBreaks s)))).

Definition status_value (status : JsVal) : Result JsVal :=
  if isNullish status then Ok (VStr "CLOSED")
  else if negb (looseEqWord status "OPEN") && negb (looseEqWord status "CLOSED")
       then Throw StatusError
       else Ok status.

(** The setters proper: assignment to one private field. *)
Definition set_crn (id : JsVal) (c : ClassObj) : Result ClassObj :=
  do x <- crn_value id;
  Ok (mkClass x (_courseID c) (_attributes c) (_title c) (_instructor c)
        (_credits c) (_times c) (_projectedEnrollment c)
        (_currentEnrollment c) (_seatsAvailable c) (_status c)).

Definition set_courseID (id : JsVal) (c : ClassObj) : Result ClassObj :=
  do x <- cleanOrEmpty id;
  Ok (mkClass (_crn c) x (_attributes c) (_title c) (_instructor c)
        (_credits c) (_times c) (_projectedEnrollment c)
        (_currentEnrollment c) (_seatsAvailable c) (_status c)).

Definition set_attributes (attributes : JsVal) (c : ClassObj) : Result ClassObj :=
  do x <- attributes_value attributes;
  Ok (mkClass (_crn c) (_courseID c) x (_title c) (_instructor c)
        (_credits c) (_times c) (_projectedEnrollment c)
        (_currentEnrollment c) (_seatsAvailable c) (_status c)).

Definition set_title (name : JsVal) (c : ClassObj) : Result ClassObj :=
  do x <- cleanOrEmpty name;
  Ok (mkClass (_crn c) (_courseID c) (_attributes c) x (_instructor c)
        (_credits c) (_times c) (_projectedEnrollment c)
        (_currentEnrollment c) (_seatsAvailable c) (_status c)).

Definition set_instructor (instructor : JsVal) (c : ClassObj) : Result ClassObj :=
  do x <- cleanOrEmpty instructor;
  Ok (mkClass (_crn c) (_courseID c) (_attributes c) (_title c) x
        (_credits c) (_times c) (_projectedEnrollment c)
        (_currentEnrollment c) (_seatsAvailable c) (_status c)).

Definition set_credits (credits : JsVal) (c : ClassObj) : Result ClassObj :=
  do x <- credits_value credits;
  Ok (mkClass (_crn c) (_courseID c) (_attributes c) (_title c) (_instructor c)
        x (_times c) (_projectedEnrollment c)
        (_currentEnrollment c) (_seatsAvailable c) (_status c)).

Definition set_times (times : JsVal) (c : ClassObj) : Result ClassObj :=
  do x <- cleanOrEmpty times;
  Ok (mkClass (_crn c) (_courseID c) (_attributes c) (_title c) (_instructor c)
        (_credits c) x (_projectedEnrollment c)
        (_currentEnrollment c) (_seatsAvailable c) (_status c)).

Definition set_projectedEnrollment (v : JsVal) (c : ClassObj) : Result ClassObj :=
  do x <- cleanInt v;
  Ok (mkClass (_crn c) (_courseID c) (_attributes c) (_title c) (_instructor c)
        (_credits c) (_times c) x
        (_currentEnrollment c) (_seatsAvailable c) (_status c)).

Definition set_currentEnrollment (v : JsVal) (c : ClassObj) : Result ClassObj :=
  do x <- cleanInt v;
  Ok (mkClass (_crn c) (_courseID c) (_attributes c) (_title c) (_instructor c)
        (_credits c) (_times c) (_projectedEnrollment c)
        x (_seatsAvailable c) (_status c)).

Definition set_seatsAvailable (v : JsVal) (c : ClassObj) : Result ClassObj :=
  do x <- seatsAvailable_value v;
  Ok (mkClass (_crn c) (_courseID c) (_attributes c) (_title c) (_instructor c)
        (_credits c) (_times c) (_projectedEnrollment c)
        (_currentEnrollment c) x (_status c)).

Definition set_status (status : JsVal) (c : ClassObj) : Result ClassObj :=
  do x <- status_value status;
  Ok (mkClass (_crn c) (_courseID c) (_attributes c) (_title c) (_instructor c)
        (_credits c) (_times c) (_projectedEnrollment c)
        (_currentEnrollment c) (_seatsAvailable c) x).

(** The getters that compute something. *)
Definition crn (c : ClassObj) : string := Num_toString (_crn c).
Definition status (c : ClassObj) : JsVal := _status c.
Definition statusAsBool (c : ClassObj) : bool := looseEqWord (_status c) "OPEN".

(** The object [new] hands to the constructor: no field assigned yet.
    Every field is overwritten before the constructor returns, so the
    placeholders of the typed fields are never observed. *)
Definition fresh : ClassObj :=
  mkClass NaN EmptyString [] EmptyString EmptyString None EmptyString
          NaN NaN NaN VUndef.

(** [new Class(crn, courseID, ..., status)]: the eleven assignments of the
    constructor, in its order; the first setter that throws aborts it. *)
Definition new_Class
    (crn courseID attributes title instructor credits times
     projectedEnrollment currentEnrollment seatsAvailable status : JsVal)
    : Result ClassObj :=
  do c <- set_crn crn fresh;
  do c <- set_courseID courseID c;
  do c <- set_attributes attributes c;
  do c <- set_title title c;
  do c <- set_instructor instructor c;
  do c <- set_credits credits c;
  do c <- set_times times c;
  do c <- set_projectedEnrollment projectedEnrollment c;
  do c <- set_currentEnrollment currentEnrollment c;
  do c <- set_seatsAvailable seatsAvailable c;
  set_status status c.

(** [JSON.stringify] of a [Class] object: its own properties, in the
    order the constructor created them. *)
Definition numJSON (n : Num) : JsVal :=
  match n with
  | NaN => VNull
  | Int _ => VNum n
  end.

Definition Class_toJSON (c : ClassObj) : JsVal :=
  VObj ([ ("_crn", numJSON (_crn c));
          ("_courseID", VStr (_courseID c));
          ("_attributes", VArr (map VStr (_attributes c)));
          ("_title", VStr (_title c));
          ("_instructor", VStr (_instructor c));
          ("_credits", match _credits c with
                       | Some n => numJSON n
                       | None => VNull
                       end);
          ("_times", VStr (_times c));
          ("_projectedEnrollment", numJSON (_projectedEnrollment c));
          ("_currentEnrollment", numJSON (_currentEnrollment c));
          ("_seatsAvailable", numJSON (_seatsAvailable c)) ]
        ++ match toJSON (_status c) with
           | Some j => [ ("_status", j) ]
           | None => []
           end).

End Course.
Export Course.

(* ===================================================================== *)
(** ** [scraper.ts]                                                      *)
(* ===================================================================== *)

Module Scraper.

(** [interface IRateLimit] *)
Record IRateLimit : Type := mkRateLimit {
  _interval : Z;
  _lastRequest : Z
}.

(** [interface IData]; [null] is [VNull] for the term and [None] for the
    two arrays.  The latest term is whatever [option.value] held. *)
Record IData : Type := mkData {
  terms_latest : JsVal;
  terms_all : option (list string);
  subjects : option (list string)
}.

(** What the code reads from a fetched page once JSDOM has parsed it: the
    option values under [#term_code] and [#term_subj], and the text of the
    [td] cells of every row under the first [tbody].  [None] stands for
    an element that is not in the document. *)
Record Page : Type := mkPage {
  term_code : option (list string);
  term_subj : option (list string);
  tbody : option (list (list string))
}.

(** A file either holds the text [JSON.stringify] wrote for some value,
    which [JSON.parse] reads back as that value, or some other text,
    which does not parse. *)
Inductive File : Type :=
  | Text (content : string)
  | JsonDoc (v : JsVal).

(** The scraper object and the world around it: the clock [Date.now()]
    reads, the URLs requested so far (oldest first), the file system. *)
Record State : Type := mkState {
  _userAgent : string;
  _rateLimit : IRateLimit;
  courselistData : IData;
  classData : list ClassObj;
  clock : Z;
  requests : list string;
  files : gmap string File
}.

(** The object after [new Scraper(userAgent)] at time [now]. *)
Definition initial (userAgent : string) (now : Z) (fs : gmap string File) : State :=
  mkState userAgent (mkRateLimit 500 0) (mkData VNull None None) [] now [] fs.

Definition with_rateLimit (r : IRateLimit) (st : State) : State :=
  mkState (_userAgent st) r (courselistData st) (classData st)
          (clock st) (requests st) (files st).
Definition with_courselistData (d : IData) (st : State) : State :=
  mkState (_userAgent st) (_rateLimit st) d (classData st)
          (clock st) (requests st) (files st).
Definition with_classData (l : list ClassObj) (st : State) : State :=
  mkState (_userAgent st) (_rateLimit st) (courselistData st) l
          (clock st) (requests st) (files st).
Definition with_clock (t : Z) (st : State) : State :=
  mkState (_userAgent st) (_rateLimit st) (courselistData st) (classData st)
          t (requests st) (files st).
Definition with_requests (l : list string) (st : State) : State :=
  mkState (_userAgent st) (_rateLimit st) (courselistData st) (classData st)
          (clock st) l (files st).
Definition with_files (fs : gmap string File) (st : State) : State :=
  mkState (_userAgent st) (_rateLimit st) (courselistData st) (classData st)
          (clock st) (requests st) fs.

(** *** The monad of methods

    A method runs from a state to an outcome and the state it leaves
    behind; what was assigned before a [throw] stays assigned. *)
Inductive Outcome (A : Type) : Type :=
  | Done (a : A)
  | Raise (e : Error)
  | NoFuel.
Arguments Done {A} a.
Arguments Raise {A} e.
Arguments NoFuel {A}.

Definition M (A : Type) : Type := State -> Outcome A * State.

Definition ret {A} (a : A) : M A := fun st => (Done a, st).
Definition raise {A} (e : Error) : M A := fun st => (Raise e, st).
Definition bind {A B} (m : M A) (k : A -> M B) : M B :=
  fun st =>
    match m st with
    | (Done a, st') => k a st'
    | (Raise e, st') => (Raise e, st')
    | (NoFuel, st') => (NoFuel, st')
    end.
Definition gets {A} (f : State -> A) : M A := fun st => (Done (f st), st).
Definition modify (f : State -> State) : M unit := fun st => (Done tt, f st).
Definition liftR {A} (r : Result A) : M A :=
  match r with
  | Ok a => ret a
  | Throw e => raise e
  end.

Declare Scope method_scope.
Delimit Scope method_scope with method.
Notation "x <- m ;; k" := (bind m (fun x => k))
  (at level 100, m at next level, right associativity) : method_scope.
Notation "m ;; k" := (bind m (fun _ => k))
  (at level 100, right associativity) : method_scope.
Open Scope method_scope.

(** [for (const x of l) body(x)] *)
Fixpoint forEach {A} (l : list A) (body : A -> M unit) : M unit :=
  match l with
  | [] => ret tt
  | x :: r => body x ;; forEach r body
  end.

Section WithNetwork.

(** The remote server: the page behind a URL, or [None] when the request
    fails. *)
Variable http : string -> option Page.

(** [fetch(url, ...)]: the request is issued, then resolves or rejects. *)
Definition fetch (url : string) : M Page :=
  modify (fun st => with_requests (requests st ++ [url]) st) ;;
  match http url with
  | Some page => ret page
  | None => raise FetchError
  end.

(** [httpRequest(url)]: [fetch] with its rejection wrapped in a
    [ScraperError] (whose message, the text of the rejection, is kept
    abstract). *)
Definition httpRequest (url : string) : M Page :=
  fun st =>
    match fetch url st with
    | (Raise _, st') => (Raise (ScraperError "fetch"), st')
    | r => r
    end.

(** [get rateLimit()] returns [_rateLimit._interval]. *)
Definition rateLimit (st : State) : Z := _interval (_rateLimit st).

(** [await new Promise(r => setTimeout(r, wait))]: the clock moves on by
    [wait] milliseconds. *)
Definition sleep (wait : Z) : M unit :=
  modify (fun st => with_clock (clock st + wait) st).

Definition _logAndExecuteRateLimit : M unit :=
  now <- gets clock ;;
  interval <- gets rateLimit ;;
  let diff := now - interval in
  (if diff <? interval then sleep (interval - diff) else ret tt) ;;
  now' <- gets clock ;;
  modify (fun st => with_rateLimit (mkRateLimit (_interval (_rateLimit st)) now') st).

Definition listingUrl : string :=
  "https://courselist.wm.edu/courselist/courseinfo/".

(** [document.getElementById(id).children]: reading [children] of a
    missing element throws. *)
Definition children {A} (element : option A) : M A :=
  match element with
  | Some c => ret c
  | None => raise TypeError
  end.

(** [termChildren[termChildren.length - 2].value] *)
Definition secondToLast (l : list string) : M JsVal :=
  if (2 <=? Z.of_nat (length l))
  then match nth_error l (length l - 2) with
       | Some v => ret (VStr v)
       | None => raise TypeError
       end
  else raise TypeError.

Definition getTermsAndSubjects : M unit :=
  _logAndExecuteRateLimit ;;
  page <- httpRequest listingUrl ;;
  termChildren <- children (term_code page) ;;
  modify (fun st =>
    with_courselistData
      (mkData (terms_latest (courselistData st)) (Some termChildren)
              (subjects (courselistData st))) st) ;;
  latest <- secondToLast termChildren ;;
  modify (fun st =>
    with_courselistData
      (mkData latest (terms_all (courselistData st))
              (subjects (courselistData st))) st) ;;
  subjectsChildren <- children (term_subj page) ;;
  modify (fun st =>
    with_courselistData
      (mkData (terms_latest (courselistData st)) (terms_all (courselistData st))
              (Some (tl subjectsChildren))) st).

(** [classInfo] is the array of [textContent] strings of one table row. *)
Definition createAndSaveClass (classInfo : list string) : M unit :=
  match classInfo with
  | [c0; c1; c2; c3; c4; c5; c6; c7; c8; c9; c10] =>
      cls <- liftR (new_Class (VStr c0) (VStr c1)
                      (VArr (map VStr (split "," c2)))
                      (VStr c3) (VStr c4) (VStr c5) (VStr c6) (VStr c7)
                      (VStr c8) (VStr c9) (VStr c10)) ;;
      modify (fun st => with_classData (classData st ++ [cls]) st)
  | _ =>
      raise (ScraperError "Invalid classInfo parameter. Must be an array of length 11.")
  end.

Definition searchUrl (term subjectCode : JsVal) : string :=
  ("https://courselist.wm.edu/courselist/courseinfo/searchresults?term_code="
   ++ ToString term ++ "&term_subj=" ++ ToString subjectCode
   ++ "&attr=0&attr2=0&levl=0&status=0&ptrm=0&search=Search")%string.

(** [subjects.includes(subjectCode)] on an array of strings. *)
Definition includes (l : list string) (v : JsVal) : bool :=
  match v with
  | VStr s => existsb (String.eqb s) l
  | _ => false
  end.

(** Truthiness of a field that holds an array or [null]. *)
Definition notNull {A} (o : option A) : bool :=
  match o with
  | Some _ => true
  | None => false
  end.

(** [getCourseData(subjectCode?, term?)].  The method calls itself from
    its all-subjects branch; [fuel] bounds the depth of these calls. *)
Fixpoint getCourseData (fuel : nat) (subjectCode term : JsVal) : M unit :=
  match fuel with
  | O => fun st => (NoFuel, st)
  | S fuel' =>
      d <- gets courselistData ;;
      (if negb (truthy (terms_latest d)) && negb (notNull (subjects d))
       then
         getTermsAndSubjects ;;
         d' <- gets courselistData ;;
         if truthy (terms_latest d') && notNull (subjects d')
         then ret tt
         else raise (ScraperError "Unable to get term from Open Course List.")
       else ret tt) ;;
      if truthy subjectCode
      then
        subs <- gets (fun st => subjects (courselistData st)) ;;
        known <- children subs ;;
        (if includes known subjectCode then ret tt
         else raise (ScraperError
                       ("Subject code " ++ ToString subjectCode
                        ++ " is not found. Have you called getTermAndSubjects()?"))) ;;
        _logAndExecuteRateLimit ;;
        latest <- gets (fun st => terms_latest (courselistData st)) ;;
        page <- fetch (searchUrl (if truthy term then term else latest) subjectCode) ;;
        table <- children (tbody page) ;;
        forEach table createAndSaveClass
      else
        subs <- gets (fun st => subjects (courselistData st)) ;;
        all <- children subs ;;
        forEach all (fun subject =>
          latest <- gets (fun st => terms_latest (courselistData st)) ;;
          getCourseData fuel' (VStr subject) (if truthy term then term else latest))
  end.

(** [saveToJson(saveLocation)]; the write itself is assumed to succeed. *)
Definition saveToJson (saveLocation : string) : M unit :=
  let location :=
    if endsWith saveLocation ".json" then saveLocation
    else (saveLocation ++ ".json")%string in
  modify (fun st =>
    with_files (<[location := JsonDoc (VArr (map Class_toJSON (classData st)))]> (files st)) st).

(** [entry.name] for the entries of a parsed document. *)
Definition getProp (entry : JsVal) (name : string) : M JsVal :=
  match entry with
  | VUndef | VNull => raise TypeError
  | VObj fields => ret (lookupField name fields)
  | _ => ret VUndef
  end.

(** The values [for ... of] draws from [data]. *)
Definition iterate (data : JsVal) : M (list JsVal) :=
  match data with
  | VArr l => ret l
  | VStr s => ret (map (fun c => VStr (String c EmptyString)) (list_ascii_of_string s))
  | _ => raise TypeError
  end.

Definition loadEntry (entry : JsVal) : M unit :=
  crn0 <- getProp entry "_crn" ;;
  crn <- liftR (toStringOf crn0) ;;
  courseID <- getProp entry "_courseID" ;;
  attributes <- getProp entry "_attributes" ;;
  title <- getProp entry "_title" ;;
  instructor <- getProp entry "_instructor" ;;
  credits <- getProp entry "_credits" ;;
  times <- getProp entry "_times" ;;
  projectedEnrollment <- getProp entry "_projectedEnrollment" ;;
  currentEnrollment <- getProp entry "_currentEnrollment" ;;
  seatsAvailable <- getProp entry "_seatsAvailable" ;;
  status <- getProp entry "_status" ;;
  cls <- liftR (new_Class (VStr crn) courseID attributes title instructor
                  credits times projectedEnrollment currentEnrollment
                  seatsAvailable
                  (VStr (if truthy status then "OPEN" else "CLOSED"))) ;;
  modify (fun st => with_classData (classData st ++ [cls]) st).

Definition loadFromJson (filepath : string) : M unit :=
  file <- gets (fun st => files st !! filepath) ;;
  match file with
  | Some (JsonDoc data) =>
      modify (with_classData []) ;;
      entries <- iterate data ;;
      forEach entries loadEntry
  | _ => raise LoadError
  end.

End WithNetwork.

Section WithText.

(** The text [JSON.stringify(v, null, 4)] produces, for reading a saved
    structured file as plain text. *)
Variable JSON_text : JsVal -> string.

(** [readFileSync(filepath).toString()] *)
Definition readText (filepath : string) : M string :=
  file <- gets (fun st => files st !! filepath) ;;
  match file with
  | Some (Text content) => ret content
  | Some (JsonDoc v) => ret (JSON_text v)
  | None => raise FsError
  end.

(** The double quote, as a one-character string. *)
Definition DQ : string := String (ascii_of_nat 34) EmptyString.

(** [seperated[i]] *)
Definition item (seperated : list string) (i : nat) : JsVal :=
  match nth_error seperated i with
  | Some s => VStr s
  | None => VUndef
  end.

(** [parseInt(x)]: the argument goes through [ToString] first. *)
Definition parseIntOf (v : JsVal) : JsVal := VNum (parseInt (ToString v)).

(** The body of the [forEach] in [loadFromCsv]. *)
Definition loadCsvLine (line : string) : M unit :=
  let seperated :=
    split ","
      (removeFirst "]"
        (removeFirst "["
          (replaceAll ", " " "
            (replaceAll ",  " " "
              (replaceAll DQ ""
                (replaceAll (DQ ++ DQ ++ "," ++ DQ ++ DQ) "-" line)))))) in
  let attributes :=
    match nth_error seperated 2 with
    | Some s => if truthy (VStr s) then map VStr (split "-" s) else []
    | None => []
    end in
  cls <- liftR (new_Class (item seperated 0) (item seperated 1)
                  (VArr attributes)
                  (item seperated 3) (item seperated 4)
                  (parseIntOf (item seperated 5))
                  (item seperated 6)
                  (parseIntOf (item seperated 7))
                  (parseIntOf (item seperated 8))
                  (parseIntOf (item seperated 9))
                  (item seperated 10)) ;;
  modify (fun st => with_classData (classData st ++ [cls]) st).

Definition loadFromCsv (filepath : string) : M unit :=
  content <- readText filepath ;;
  let lines := tl (split (ascii_of_nat 10) content) in
  modify (with_classData []) ;;
  forEach lines loadCsvLine.

End WithText.

(** [findClassByCrn(crn)]: [None] is the [undefined] the method returns
    when the loop ends without a match. *)
Definition findClassByCrn (crn : string) (st : State) : option ClassObj :=
  find (fun classEntry => String.eqb (Course.crn classEntry) crn) (classData st).

(** *** Construction and configuration *)

(** [/^[a-zA-Z0-9_.+-]+@(?:(?:[a-zA-Z0-9-]+\.)?[a-zA-Z]+\.)?(wm|email.wm)\.edu$/]
    The dot inside [email.wm] is not escaped in the source. *)
Definition userAgentPattern : RegExp :=
  RCat (RPlus (RChar (fun c => isAlnum c || Ascii.eqb c "_" || Ascii.eqb c "."
                               || Ascii.eqb c "+" || Ascii.eqb c "-")))
    (RCat (RChar (Ascii.eqb "@"))
      (RCat (ROpt (RCat (ROpt (RCat (RPlus (RChar (fun c => isAlnum c || Ascii.eqb c "-")))
                                    (RChar (Ascii.eqb "."))))
                        (RCat (RPlus (RChar isAlpha)) (RChar (Ascii.eqb ".")))))
        (RCat (RAlt (RLit "wm")
                    (RCat (RLit "email") (RCat (RChar anyChar) (RLit "wm"))))
              (RLit ".edu")))).

(** [set userAgent(userAgent)] *)
Definition set_userAgent (userAgent : string) (st : State) : Result State :=
  if test userAgentPattern userAgent
  then Ok (mkState userAgent (_rateLimit st) (courselistData st) (classData st)
             (clock st) (requests st) (files st))
  else Throw (ScraperError "Invalid user agent. Must be a W&M email address.").

(** [set rateLimit(ms)]; the warning below 500 ms goes to the logger,
    which is not part of the state. *)
Definition set_rateLimit (ms : Z) (st : State) : State :=
  with_rateLimit (mkRateLimit ms (_lastRequest (_rateLimit st))) st.

(** [new Scraper(userAgent, rateLimit?)] in a world whose clock shows
    [now] and whose file system is [fs]; [None] is an omitted
    [rateLimit]. *)
Definition new_Scraper (userAgent : string) (rateLimit : option Z)
    (now : Z) (fs : gmap string File) : Result State :=
  rbind (set_userAgent userAgent (initial "" now fs)) (fun st =>
    match rateLimit with
    | Some ms => if truthy (VNum (Int ms)) then Ok (set_rateLimit ms st) else Ok st
    | None => Ok st
    end).

(** *** Queries *)

(** [a === s] for a string [s]. *)
Definition strictEqStr (a : JsVal) (s : string) : bool :=
  match a with
  | VStr t => String.eqb t s
  | _ => false
  end.


Definition findClassByCourseID (courseID : string) (st : State) : option ClassObj :=
  find (fun classEntry => String.eqb (_courseID classEntry) courseID) (classData st).

(** The loop of [findClassesByAttribute], [foundClasses] being the
    accumulator. *)
Fixpoint collectByAttribute (attribute : string) (classes foundClasses : list ClassObj)
    : list ClassObj :=
  match classes with
  | [] => foundClasses
  | classEntry :: rest =>
      collectByAttribute attribute rest
        (if existsb (String.eqb attribute) (_attributes classEntry)
         then foundClasses ++ [classEntry]
         else foundClasses)
  end.

Definition findClassesByAttribute (attribute : string) (st : State) : list ClassObj :=
  collectByAttribute attribute (classData st) [].

Definition findClassesByInstructor (instructor : string) (st : State) : list ClassObj :=
  List.filter (fun classEntry => String.eqb (_instructor classEntry) instructor)
    (classData st).


Definition findClassesByTimes (times : string) (st : State) : list ClassObj :=
  List.filter (fun classEntry => String.eqb (_times classEntry) times)
    (classData st).




Definition findClassesByStatus (status : string) (st : State) : list ClassObj :=
  List.filter (fun classEntry => strictEqStr (Course.status classEntry) status)
    (classData st).

End Scraper.
Export Scraper.

(* ===================================================================== *)
(** ** Vocabulary of the properties                                      *)
(* ===================================================================== *)

(** The two canonical statuses. *)
Definition status_ok (c : ClassObj) : Prop :=
  _status c = VStr "OPEN" \/ _status c = VStr "CLOSED".

(** Values that are not arrays or objects; the declared type of every
    scalar constructor argument ([string], [number], possibly absent)
    lies within. *)
Definition isPrimitive (v : JsVal) : bool :=
  match v with
  | VArr _ | VObj _ => false
  | _ => true
  end.

(** [c] with its status replaced. *)
Definition with_status (s : JsVal) (c : ClassObj) : ClassObj :=
  mkClass (_crn c) (_courseID c) (_attributes c) (_title c) (_instructor c)
          (_credits c) (_times c) (_projectedEnrollment c)
          (_currentEnrollment c) (_seatsAvailable c) s.

(** [awaits gaps]: consecutive rate-limited calls, the caller letting
    [gap] milliseconds pass before each; the result lists the time stamp
    [_lastRequest] each call recorded. *)
Fixpoint awaits (gaps : list Z) : M (list Z) :=
  match gaps with
  | [] => ret []
  | gap :: rest =>
      sleep gap ;;
      _logAndExecuteRateLimit ;;
      stamp <- gets (fun st => _lastRequest (_rateLimit st)) ;;
      stamps <- awaits rest ;;
      ret (stamp :: stamps)
  end.

(** Consecutive elements of [l] are at least [d] apart. *)
Fixpoint spaced (d : Z) (l : list Z) : Prop :=
  match l with
  | a :: (b :: _) as r => d <= b - a /\ spaced d r
  | _ => True
  end.

(** The characters that may follow the number in a seats-available cell:
    the asterisk marker, white space, line breaks. *)
Definition isTrailer (c : ascii) : bool :=
  Ascii.eqb c "*" || isWhiteSpace c || isLineBreak c.

Fixpoint allChars (p : ascii -> bool) (s : string) : bool :=
  match s with
  | EmptyString => true
  | String c r => p c && allChars p r
  end.

(** Decimal digits, and the characters of a decimal numeral. *)
Definition isDecDigit (c : ascii) : bool :=
  match digitVal 10 c with
  | Some _ => true
  | None => false
  end.

Definition isNumeralChar (c : ascii) : bool :=
  isDecDigit c || Ascii.eqb c "-".

(** [r] does not begin with the [x] of a hexadecimal prefix. *)
Definition noHexMark (r : string) : bool :=
  match r with
  | EmptyString => true
  | String x _ => negb (Ascii.eqb x "x" || Ascii.eqb x "X")
  end.

(** [parseInt] stops reading a decimal numeral in front of [r]. *)
Definition stops (r : string) : bool :=
  match r with
  | EmptyString => true
  | String c _ => negb (isDecDigit c) && noHexMark r
  end.

(** [s] is empty or begins with something else than white space. *)
Definition headOK (s : string) : bool :=
  match s with
  | EmptyString => true
  | String c _ => negb (isWhiteSpace c)
  end.

Definition notLineBreak (c : ascii) : bool := negb (isLineBreak c).

(** LF, as a one-character string. *)
Definition LF : string := String (ascii_of_nat 10) EmptyString.


(** A record as the constructor leaves it when every number parsed: the
    strings are clean (cleaning them again changes nothing), the numbers
    are integers, the credits an integer or [null], the status one of
    the two tokens. *)
Definition isInt (n : Num) : Prop := exists z, n = Int z.

Definition wellFormed (c : ClassObj) : Prop :=
  isInt (_crn c) /\
  clean (_courseID c) = _courseID c /\
  Forall (fun a => clean a = a) (_attributes c) /\
  clean (_title c) = _title c /\
  clean (_instructor c) = _instructor c /\
  (_credits c = None \/ exists z, _credits c = Some (Int z)) /\
  clean (_times c) = _times c /\
  isInt (_projectedEnrollment c) /\
  isInt (_currentEnrollment c) /\
  isInt (_seatsAvailable c) /\
  status_ok c.

(** Where [saveToJson] writes. *)
Definition jsonLocation (saveLocation : string) : string :=
  if endsWith saveLocation ".json" then saveLocation
  else (saveLocation ++ ".json")%string.

(** The status invariant on the whole collection, and what it means for a
    method to keep it, whatever the outcome (return or throw). *)
Definition records_ok (st : State) : Prop := Forall status_ok (classData st).

Definition preserves {A} (m : M A) : Prop :=
  forall st, records_ok st -> records_ok (snd (m st)).

(** A method [steps] along a relation [R] on states when the state it
    leaves is [R]-related to the one it started from, whatever the
    outcome. *)
Definition steps {A} (R : State -> State -> Prop) (m : M A) : Prop :=
  forall st, R st (snd (m st)).

(** Relations between the state before and the state after a method. *)
Definition keeps (a b : State) : Prop := records_ok a -> records_ok b.



(** The term that ends up in the search URL. *)
Definition effectiveTerm (term : JsVal) (st : State) : JsVal :=
  if truthy term then term else terms_latest (courselistData st).

(** A loop body [pushes] when each of its runs either appends one record,
    the same from every state, and changes nothing else, or throws, the
    same error from every state, and changes nothing at all. *)
Definition pushes {A} (body : A -> M unit) : Prop :=
  forall a,
    (exists cls, forall st,
        body a st = (Done tt, with_classData (classData st ++ [cls]) st)) \/
    (exists e, forall st, body a st = (Raise e, st)).

(** No white space at the end of a string; a string is [tidy] when it
    has no line break anywhere and no white space at either end. *)
Fixpoint lastOK (s : string) : bool :=
  match s with
  | EmptyString => true
  | String c EmptyString => negb (isWhiteSpace c)
  | String _ r => lastOK r
  end.

Definition tidy (s : string) : Prop :=
  allChars notLineBreak s = true /\ headOK s = true /\ lastOK s = true.

(** A record whose strings are all tidy, and a collection of such
    records. *)
Definition tidyRecord (c : ClassObj) : Prop :=
  tidy (_courseID c) /\ tidy (_title c) /\ tidy (_instructor c) /\
  tidy (_times c) /\ Forall tidy (_attributes c).

Definition tidy_ok (st : State) : Prop := Forall tidyRecord (classData st).

Definition keepsTidy (a b : State) : Prop := tidy_ok a -> tidy_ok b.

(** A cell [reads] as [z] when it holds the decimal numeral of [z],
    possibly after white space and before asterisks, white space and
    line breaks. *)
Definition reads (cell : string) (z : Z) : Prop :=
  exists lead trail,
    allChars isWhiteSpace lead = true /\
    allChars isTrailer trail = true /\
    cell = (lead ++ Z_toString z ++ trail)%string.

(** A row [createAndSaveClass] accepts: eleven cells, the last one OPEN
    or CLOSED. *)
Definition rowOK (row : list string) : bool :=
  (length row =? 11)%nat &&
  (String.eqb (nth 10 row EmptyString) "OPEN"
   || String.eqb (nth 10 row EmptyString) "CLOSED").

(** How often a character occurs in a string. *)
Fixpoint occurrences (x : ascii) (s : string) : nat :=
  match s with
  | EmptyString => O
  | String c r => (if Ascii.eqb c x then 1 else 0) + occurrences x r
  end.

(** The record [loadFromCsv] builds from a line without any field. *)
Definition blankRecord : ClassObj :=
  mkClass NaN EmptyString [] EmptyString EmptyString (Some NaN) EmptyString
          NaN NaN NaN (VStr "CLOSED").


(** The values [for ... of] accepts in the model: arrays and strings. *)
Definition isIterable (data : JsVal) : bool :=
  match data with
  | VArr _ | VStr _ => true
  | _ => false
  end.

(** The language of a regular expression. *)
Inductive matches : RegExp -> string -> Prop :=
  | m_eps : matches REps EmptyString
  | m_char p c : p c = true -> matches (RChar p) (String c EmptyString)
  | m_cat r1 r2 s1 s2 :
      matches r1 s1 -> matches r2 s2 -> matches (RCat r1 r2) (s1 ++ s2)
  | m_alt_l r1 r2 s : matches r1 s -> matches (RAlt r1 r2) s
  | m_alt_r r1 r2 s : matches r2 s -> matches (RAlt r1 r2) s
  | m_star_nil r : matches (RStar r) EmptyString
  | m_star_cons r s1 s2 :
      matches r s1 -> matches (RStar r) s2 -> matches (RStar r) (s1 ++ s2).

(* ===================================================================== *)
(** ** Query layer                                                       *)
(* ===================================================================== *)

Lemma find_first_match {A} (p : A -> bool) (pre : list A) (x : A) (post : list A) :
  Forall (fun y => p y = false) pre -> p x = true ->
  find p (pre ++ x :: post) = Some x.
Proof.
  induction 1 as [|y pre Hy _ IH]; intros Hx; simpl.
  - now rewrite Hx.
  - rewrite Hy. now apply IH.
Qed.

Lemma find_split {A} (p : A -> bool) (l : list A) (x : A) :
  find p l = Some x ->
  exists pre post, l = pre ++ x :: post /\ Forall (fun y => p y = false) pre /\ p x = true.
Proof.
  induction l as [|y l IH]; simpl; [discriminate|].
  destruct (p y) eqn:Hy.
  - intros [= ->]. exists [], l. repeat split; auto.
  - intros H. destruct (IH H) as (pre & post & -> & Hpre & Hx).
    exists (y :: pre), post. repeat split; auto.
Qed.

(** C8. [findClassByCrn] scans the collection in order: when some record
    has the given CRN it returns the first such record (every record
    before it has another CRN), and when none has it the result is the
    absent value; there is no error outcome. *)
Theorem findClassByCrn_first_or_absent (st : State) (crn : string) :
  ((exists c, In c (classData st) /\ Course.crn c = crn) ->
   exists pre c post,
     classData st = pre ++ c :: post /\
     Forall (fun x => Course.crn x <> crn) pre /\
     Course.crn c = crn /\
     findClassByCrn crn st = Some c) /\
  ((forall c, In c (classData st) -> Course.crn c <> crn) ->
   findClassByCrn crn st = None).
Proof.
  unfold findClassByCrn. split.
  - intros (c & Hin & Hc).
    destruct (find (fun e => String.eqb (Course.crn e) crn) (classData st)) as [d|] eqn:Hf.
    + destruct (find_split _ _ _ Hf) as (pre & post & Hl & Hpre & Hd).
      exists pre, d, post. repeat split; auto.
      * eapply List.Forall_impl; [|exact Hpre]. simpl. intros a Ha.
        now apply String.eqb_neq.
      * now apply String.eqb_eq.
    + exfalso. eapply find_none in Hf; [|exact Hin]. simpl in Hf.
      apply String.eqb_neq in Hf. contradiction.
  - intros Hno.
    destruct (find (fun e => String.eqb (Course.crn e) crn) (classData st)) as [d|] eqn:Hf; auto.
    apply find_some in Hf as [Hin Hd]. apply String.eqb_eq in Hd.
    exfalso. exact (Hno d Hin Hd).
Qed.

(* ===================================================================== *)
(** ** Loading: failure before any change                                *)
(* ===================================================================== *)

(** C9. When the file cannot be read (no such file) or its text does not
    parse, [loadFromJson] throws and leaves the whole state, the record
    collection included, as it was. *)
Theorem loadFromJson_failure_keeps_state (filepath : string) (st : State) :
  files st !! filepath = None \/
  (exists content, files st !! filepath = Some (Text content)) ->
  loadFromJson filepath st = (Raise LoadError, st) /\
  classData (snd (loadFromJson filepath st)) = classData st.
Proof.
  intros H. unfold loadFromJson, bind, gets.
  destruct H as [-> | [content ->]]; simpl; auto.
Qed.

(** A file cut off in the middle: the load throws and the record already
    in the collection is still there. *)
Lemma loadFromJson_failure_example :
  let st := with_classData [with_status (VStr "OPEN") fresh]
              (initial "abcdef@wm.edu" 0
                 (<["courses.json" := Text "[{ _crn: 10101,"]> ∅)) in
  loadFromJson "courses.json" st = (Raise LoadError, st) /\
  classData (snd (loadFromJson "courses.json" st)) = classData st.
Proof.
  intros st. apply loadFromJson_failure_keeps_state. right.
  exists "[{ _crn: 10101,". vm_compute. reflexivity.
Defined.

(* ===================================================================== *)
(** ** The status domain                                                 *)
(* ===================================================================== *)

Ltac inv_rbind :=
  repeat match goal with
         | H : rbind ?r _ = Ok _ |- _ =>
             let E := fresh "E" in
             destruct r eqn:E; simpl in H; [|discriminate]
         | H : Ok _ = Ok _ |- _ => injection H as H; subst
         end.

Lemma status_value_word (s : string) :
  (s = "OPEN" \/ s = "CLOSED" -> status_value (VStr s) = Ok (VStr s)) /\
  (s <> "OPEN" -> s <> "CLOSED" -> status_value (VStr s) = Throw StatusError).
Proof.
  unfold status_value; simpl. split.
  - intros [-> | ->]; reflexivity.
  - intros H1 H2. apply String.eqb_neq in H1, H2. now rewrite H1, H2.
Qed.

Lemma status_value_nullish (v : JsVal) :
  isNullish v = true -> status_value v = Ok (VStr "CLOSED").
Proof. unfold status_value. now intros ->. Qed.

Lemma status_value_canonical (v x : JsVal) :
  isPrimitive v = true -> status_value v = Ok x ->
  x = VStr "OPEN" \/ x = VStr "CLOSED".
Proof.
  intros Hp. unfold status_value.
  destruct v; simpl in *; try discriminate; try (intros [= <-]; now right).
  destruct (String.eqb s "OPEN") eqn:E1; simpl.
  - apply String.eqb_eq in E1 as ->. intros [= <-]. now left.
  - destruct (String.eqb s "CLOSED") eqn:E2; simpl; [|discriminate].
    apply String.eqb_eq in E2 as ->. intros [= <-]. now right.
Qed.

(** Whatever the first ten arguments do, a constructor call whose status
    setter throws does not return an object. *)
Lemma new_Class_status_throws
    (a0 a1 a2 a3 a4 a5 a6 a7 a8 a9 status : JsVal) :
  (forall c, set_status status c = Throw StatusError) ->
  exists e, new_Class a0 a1 a2 a3 a4 a5 a6 a7 a8 a9 status = Throw e.
Proof.
  intros Hs. unfold new_Class.
  repeat match goal with
         | |- exists e, rbind ?r _ = Throw e =>
             destruct r; simpl; [|eexists; reflexivity]
         end.
  rewrite Hs. eexists; reflexivity.
Qed.

(** An absent status is constructed as a CLOSED one. *)
Lemma new_Class_status_absent
    (a0 a1 a2 a3 a4 a5 a6 a7 a8 a9 absent : JsVal) :
  isNullish absent = true ->
  new_Class a0 a1 a2 a3 a4 a5 a6 a7 a8 a9 absent
  = new_Class a0 a1 a2 a3 a4 a5 a6 a7 a8 a9 (VStr "CLOSED").
Proof.
  intros Hn. unfold new_Class.
  repeat match goal with
         | |- rbind ?r _ = rbind ?r _ => destruct r; simpl; [|reflexivity]
         end.
  unfold set_status. now rewrite (status_value_nullish _ Hn).
Qed.

(** C3 (as amended).  A string is accepted exactly when it is ['OPEN'] or
    ['CLOSED'], and is then stored unchanged; any other string, the empty
    one included, makes the setter throw and so makes construction fail;
    an absent status ([undefined] or [null]) is stored as ['CLOSED'], by
    the setter and hence by the constructor. *)
Theorem status_setter_domain (s : string) (absent : JsVal) (c : ClassObj) :
  (s = "OPEN" \/ s = "CLOSED" ->
   set_status (VStr s) c = Ok (with_status (VStr s) c)) /\
  (s <> "OPEN" -> s <> "CLOSED" ->
   set_status (VStr s) c = Throw StatusError /\
   forall a0 a1 a2 a3 a4 a5 a6 a7 a8 a9,
     exists e, new_Class a0 a1 a2 a3 a4 a5 a6 a7 a8 a9 (VStr s) = Throw e) /\
  (isNullish absent = true ->
   set_status absent c = Ok (with_status (VStr "CLOSED") c) /\
   forall a0 a1 a2 a3 a4 a5 a6 a7 a8 a9,
     new_Class a0 a1 a2 a3 a4 a5 a6 a7 a8 a9 absent
     = new_Class a0 a1 a2 a3 a4 a5 a6 a7 a8 a9 (VStr "CLOSED")) /\
  set_status (VStr "") c = Throw StatusError.
Proof.
  destruct (status_value_word s) as [Hin Hout].
  repeat split.
  - intros H. unfold set_status. now rewrite (Hin H).
  - unfold set_status. now rewrite (Hout H H0).
  - intros. apply new_Class_status_throws. intros c'.
    unfold set_status. now rewrite (Hout H H0).
  - unfold set_status. now rewrite (status_value_nullish _ H).
  - intros. now apply new_Class_status_absent.
Qed.

(** C3, as first stated, fails: constructing a record without a status
    succeeds, and the record is CLOSED. *)
Lemma status_absent_is_not_rejected :
  VUndef <> VStr "OPEN" /\ VUndef <> VStr "CLOSED" /\
  new_Class (VStr "10101") (VStr "BIOL 101") (VArr [VStr "C100"])
            (VStr "Intro Biology") (VStr "Smith") (VStr "3") (VStr "MWF 9-9:50")
            (VStr "30") (VStr "25") (VStr "5") VUndef
  = Ok (mkClass (Int 10101) "BIOL 101" ["C100"] "Intro Biology" "Smith"
          (Some (Int 3)) "MWF 9-9:50" (Int 30) (Int 25) (Int 5) (VStr "CLOSED")) /\
  ~ (forall v c, v <> VStr "OPEN" -> v <> VStr "CLOSED" ->
       exists e, set_status v c = Throw e).
Proof.
  repeat split; try discriminate.
  intros H. destruct (H VUndef fresh) as [e He]; discriminate.
Qed.

(* ===================================================================== *)
(** ** The status invariant                                              *)
(* ===================================================================== *)

Lemma set_status_canonical (v : JsVal) (c c' : ClassObj) :
  isPrimitive v = true -> set_status v c = Ok c' -> status_ok c'.
Proof.
  intros Hp H. unfold set_status in H. inv_rbind.
  exact (status_value_canonical _ _ Hp E).
Qed.

Lemma new_Class_canonical
    (a0 a1 a2 a3 a4 a5 a6 a7 a8 a9 status : JsVal) (c : ClassObj) :
  isPrimitive status = true ->
  new_Class a0 a1 a2 a3 a4 a5 a6 a7 a8 a9 status = Ok c -> status_ok c.
Proof.
  intros Hp H. unfold new_Class in H.
  repeat match goal with
         | H : rbind ?r _ = Ok _ |- _ =>
             destruct r; simpl in H; [|discriminate]
         end.
  exact (set_status_canonical _ _ _ Hp H).
Qed.

(** For a preorder [R], stepping along [R] passes through [bind] and
    loops. *)
Section Steps.

Variable R : State -> State -> Prop.
Hypothesis R_refl : forall st, R st st.
Hypothesis R_trans : forall a b c, R a b -> R b c -> R a c.

Lemma steps_ret {A} (a : A) : steps R (ret a).
Proof using R_refl. intros st; apply R_refl. Qed.

Lemma steps_raise {A} (e : Error) : steps R (@raise A e).
Proof using R_refl. intros st; apply R_refl. Qed.

Lemma steps_gets {A} (f : State -> A) : steps R (gets f).
Proof using R_refl. intros st; apply R_refl. Qed.

Lemma steps_liftR {A} (r : Result A) : steps R (liftR r).
Proof using R_refl. destruct r; [apply steps_ret | apply steps_raise]. Qed.

Lemma steps_modify (f : State -> State) :
  (forall st, R st (f st)) -> steps R (modify f).
Proof using Type. intros Hf st. apply Hf. Qed.

Lemma steps_bind {A B} (m : M A) (k : A -> M B) :
  steps R m -> (forall a, steps R (k a)) -> steps R (bind m k).
Proof using R_trans.
  intros Hm Hk st. unfold bind. specialize (Hm st).
  destruct (m st) as [[a | e |] st']; simpl in *; auto.
  eapply R_trans; [exact Hm | apply Hk].
Qed.

Lemma steps_forEach {A} (l : list A) (body : A -> M unit) :
  (forall a, steps R (body a)) -> steps R (forEach l body).
Proof using R_refl R_trans.
  intros Hb. induction l as [|a l IH]; simpl.
  - apply steps_ret.
  - apply steps_bind; auto.
Qed.

Lemma steps_children {A} (o : option A) : steps R (children o).
Proof using R_refl. destruct o; [apply steps_ret | apply steps_raise]. Qed.

Lemma steps_if {A} (b : bool) (m1 m2 : M A) :
  steps R m1 -> steps R m2 -> steps R (if b then m1 else m2).
Proof using Type. now destruct b. Qed.

Lemma steps_getProp (entry : JsVal) (name : string) :
  steps R (getProp entry name).
Proof using R_refl.
  destruct entry; simpl; first [apply steps_ret | apply steps_raise].
Qed.

(** What [R] has to allow: each of the assignments the methods make. *)
Hypothesis R_requests : forall st l, R st (with_requests (requests st ++ l) st).
Hypothesis R_clock : forall st t, R st (with_clock t st).
Hypothesis R_rate : forall st r, R st (with_rateLimit r st).
Hypothesis R_push :
  forall st cls, status_ok cls -> R st (with_classData (classData st ++ [cls]) st).

Lemma steps_rateLimit : steps R _logAndExecuteRateLimit.
Proof using R_refl R_trans R_clock R_rate.
  unfold _logAndExecuteRateLimit, sleep.
  apply steps_bind; [apply steps_gets | intros now].
  apply steps_bind; [apply steps_gets | intros interval].
  apply steps_bind.
  - apply steps_if; [|apply steps_ret].
    apply steps_modify. intros st. apply R_clock.
  - intros _. apply steps_bind; [apply steps_gets | intros now'].
    apply steps_modify. intros st. apply R_rate.
Qed.

Lemma steps_fetch (http : string -> option Page) (url : string) :
  steps R (fetch http url).
Proof using R_refl R_trans R_requests.
  unfold fetch. apply steps_bind.
  - apply steps_modify. intros st. apply R_requests.
  - intros _. destruct (http url); [apply steps_ret | apply steps_raise].
Qed.

Lemma steps_httpRequest (http : string -> option Page) (url : string) :
  steps R (httpRequest http url).
Proof using R_refl R_trans R_requests.
  intros st. unfold httpRequest.
  pose proof (steps_fetch http url st) as Hf.
  destruct (fetch http url st) as [[p|e|] st']; exact Hf.
Qed.

Lemma steps_construct
    (a0 a1 a2 a3 a4 a5 a6 a7 a8 a9 status : JsVal) :
  isPrimitive status = true ->
  steps R (bind (liftR (new_Class a0 a1 a2 a3 a4 a5 a6 a7 a8 a9 status))
           (fun cls => modify (fun st => with_classData (classData st ++ [cls]) st))).
Proof using R_refl R_push.
  intros Hp.
  destruct (new_Class a0 a1 a2 a3 a4 a5 a6 a7 a8 a9 status) as [c|e] eqn:E.
  - intros st. unfold bind; simpl.
    apply R_push. exact (new_Class_canonical _ _ _ _ _ _ _ _ _ _ _ _ Hp E).
  - intros st. apply R_refl.
Qed.

Lemma steps_createAndSaveClass (classInfo : list string) :
  steps R (createAndSaveClass classInfo).
Proof using R_refl R_push.
  unfold createAndSaveClass.
  do 11 (destruct classInfo as [|? classInfo]; [apply steps_raise|]).
  destruct classInfo; [|apply steps_raise].
  now apply steps_construct.
Qed.

Lemma steps_loadEntry (entry : JsVal) : steps R (loadEntry entry).
Proof using R_refl R_trans R_push.
  unfold loadEntry.
  do 12 (apply steps_bind;
         [first [apply steps_getProp | apply steps_liftR] | intros ?]).
  now apply steps_construct.
Qed.

(** With the course-list data free to change as well, discovery and the
    whole of [getCourseData] step along [R]. *)
Hypothesis R_data : forall st d, R st (with_courselistData d st).

Lemma steps_getTermsAndSubjects (http : string -> option Page) :
  steps R (getTermsAndSubjects http).
Proof using R_refl R_trans R_requests R_clock R_rate R_data.
  unfold getTermsAndSubjects, secondToLast.
  apply steps_bind; [apply steps_rateLimit|intros _].
  apply steps_bind; [apply steps_httpRequest|intros page].
  apply steps_bind; [apply steps_children|intros terms].
  apply steps_bind; [apply steps_modify; intros; apply R_data|intros _].
  apply steps_bind.
  - destruct (2 <=? Z.of_nat (length terms)); [|apply steps_raise].
    destruct (nth_error terms (length terms - 2));
      [apply steps_ret | apply steps_raise].
  - intros latest.
    apply steps_bind; [apply steps_modify; intros; apply R_data|intros _].
    apply steps_bind; [apply steps_children|intros subjectsChildren].
    apply steps_modify; intros; apply R_data.
Qed.

Lemma steps_getCourseData (http : string -> option Page) (fuel : nat) :
  forall subjectCode term, steps R (getCourseData http fuel subjectCode term).
Proof using R_refl R_trans R_requests R_clock R_rate R_push R_data.
  induction fuel as [|fuel IH]; intros subjectCode term; simpl.
  - intros st; apply R_refl.
  - apply steps_bind; [apply steps_gets|intros d].
    apply steps_bind.
    + apply steps_if; [|apply steps_ret].
      apply steps_bind; [apply steps_getTermsAndSubjects|intros _].
      apply steps_bind; [apply steps_gets|intros d'].
      apply steps_if; [apply steps_ret | apply steps_raise].
    + intros _. apply steps_if.
      * apply steps_bind; [apply steps_gets|intros subs].
        apply steps_bind; [apply steps_children|intros known].
        apply steps_bind;
          [apply steps_if; [apply steps_ret | apply steps_raise]|intros _].
        apply steps_bind; [apply steps_rateLimit|intros _].
        apply steps_bind; [apply steps_gets|intros latest].
        apply steps_bind; [apply steps_fetch|intros page].
        apply steps_bind; [apply steps_children|intros table].
        apply steps_forEach, steps_createAndSaveClass.
      * apply steps_bind; [apply steps_gets|intros subs].
        apply steps_bind; [apply steps_children|intros all].
        apply steps_forEach. intros subject.
        apply steps_bind; [apply steps_gets|intros latest]. apply IH.
Qed.

End Steps.

(** The three relations the methods are followed along. *)

(** Keeping the status invariant. *)
Lemma keeps_preorder :
  (forall st, keeps st st) /\ (forall a b c, keeps a b -> keeps b c -> keeps a c).
Proof. unfold keeps; split; auto. Qed.

Lemma keeps_frame (f : State -> State) :
  (forall st, classData (f st) = classData st) -> forall st, keeps st (f st).
Proof. intros Hf st H. unfold records_ok. now rewrite Hf. Qed.

Lemma keeps_push (st : State) (cls : ClassObj) :
  status_ok cls -> keeps st (with_classData (classData st ++ [cls]) st).
Proof.
  intros Hc H. unfold records_ok; simpl.
  apply Forall_app; split; [exact H | now constructor].
Qed.

Lemma preserves_steps {A} (m : M A) : steps keeps m -> preserves m.
Proof. intros H st. apply H. Qed.




Lemma preserves_createAndSaveClass (classInfo : list string) :
  preserves (createAndSaveClass classInfo).
Proof.
  apply preserves_steps, steps_createAndSaveClass.
  - apply keeps_preorder.
  - apply keeps_push.
Qed.

Lemma preserves_getTermsAndSubjects (http : string -> option Page) :
  preserves (getTermsAndSubjects http).
Proof.
  destruct keeps_preorder as [Kr Kt].
  apply preserves_steps, steps_getTermsAndSubjects; auto;
    intros; apply (keeps_frame (fun st => _ st)); reflexivity.
Qed.

Lemma preserves_getCourseData (http : string -> option Page) (fuel : nat)
    (subjectCode term : JsVal) :
  preserves (getCourseData http fuel subjectCode term).
Proof.
  destruct keeps_preorder as [Kr Kt].
  apply preserves_steps, steps_getCourseData; auto using keeps_push;
    intros; apply (keeps_frame (fun st => _ st)); reflexivity.
Qed.

Lemma preserves_loadFromJson (filepath : string) :
  preserves (loadFromJson filepath).
Proof.
  destruct keeps_preorder as [Kr Kt].
  apply preserves_steps. unfold loadFromJson.
  apply (steps_bind keeps Kt); [apply (steps_gets keeps Kr)|].
  intros [[content|data]|]; try apply (steps_raise keeps Kr).
  apply (steps_bind keeps Kt);
    [apply steps_modify; intros st _; constructor|intros _].
  apply (steps_bind keeps Kt).
  - destruct data; simpl;
      first [apply (steps_ret keeps Kr) | apply (steps_raise keeps Kr)].
  - intros l. apply (steps_forEach keeps Kr Kt). intros entry.
    apply (steps_loadEntry keeps Kr Kt keeps_push).
Qed.

Lemma item_primitive (seperated : list string) (i : nat) :
  isPrimitive (item seperated i) = true.
Proof. unfold item. now destruct (nth_error seperated i). Qed.

Lemma preserves_loadFromCsv (JSON_text : JsVal -> string) (filepath : string) :
  preserves (loadFromCsv JSON_text filepath).
Proof.
  destruct keeps_preorder as [Kr Kt].
  apply preserves_steps. unfold loadFromCsv, readText.
  apply (steps_bind keeps Kt).
  - apply (steps_bind keeps Kt); [apply (steps_gets keeps Kr)|].
    intros [[content|data]|];
      first [apply (steps_ret keeps Kr) | apply (steps_raise keeps Kr)].
  - intros content. apply (steps_bind keeps Kt);
      [apply steps_modify; intros st _; constructor|intros _].
    apply (steps_forEach keeps Kr Kt). intros line. unfold loadCsvLine.
    apply (steps_construct keeps Kr keeps_push), item_primitive.
Qed.

Lemma preserves_saveToJson (saveLocation : string) :
  preserves (saveToJson saveLocation).
Proof.
  apply preserves_steps. unfold saveToJson.
  apply steps_modify. intros st H. exact H.
Qed.

Lemma setter_keeps_status (c c' : ClassObj) :
  (exists v, set_crn v c = Ok c') \/ (exists v, set_courseID v c = Ok c') \/
  (exists v, set_attributes v c = Ok c') \/ (exists v, set_title v c = Ok c') \/
  (exists v, set_instructor v c = Ok c') \/ (exists v, set_credits v c = Ok c') \/
  (exists v, set_times v c = Ok c') \/
  (exists v, set_projectedEnrollment v c = Ok c') \/
  (exists v, set_currentEnrollment v c = Ok c') \/
  (exists v, set_seatsAvailable v c = Ok c') ->
  _status c' = _status c.
Proof.
  unfold set_crn, set_courseID, set_attributes, set_title, set_instructor,
    set_credits, set_times, set_projectedEnrollment, set_currentEnrollment,
    set_seatsAvailable.
  intros H. repeat destruct H as [H|H]; destruct H as [v H];
    inv_rbind; reflexivity.
Qed.

Lemma statusAsBool_spec (c : ClassObj) :
  isPrimitive (_status c) = true ->
  (statusAsBool c = true <-> _status c = VStr "OPEN").
Proof.
  unfold statusAsBool. destruct (_status c); simpl; try discriminate;
    intros _; split; try discriminate.
  - intros H. apply String.eqb_eq in H. now subst.
  - intros [= ->]. reflexivity.
Qed.

(** C10. Every record the constructor returns has status ['OPEN'] or
    ['CLOSED'] (for a status argument of its declared type: a string or
    an absent value, more generally anything but an array or object);
    [statusAsBool] is true exactly for ['OPEN']; the other ten setters
    leave the status alone and the status setter re-establishes the
    invariant; and every scraper method that builds records
    ([createAndSaveClass], [getCourseData], [loadFromJson],
    [loadFromCsv]) or merely carries them along keeps the invariant on
    the whole collection, whether it returns or throws. *)
Theorem status_invariant :
  (forall a0 a1 a2 a3 a4 a5 a6 a7 a8 a9 status c,
     isPrimitive status = true ->
     new_Class a0 a1 a2 a3 a4 a5 a6 a7 a8 a9 status = Ok c -> status_ok c) /\
  (forall c, status_ok c -> (statusAsBool c = true <-> _status c = VStr "OPEN")) /\
  (forall v c c', isPrimitive v = true -> set_status v c = Ok c' -> status_ok c') /\
  (forall c c',
     status_ok c ->
     (exists v, set_crn v c = Ok c') \/ (exists v, set_courseID v c = Ok c') \/
     (exists v, set_attributes v c = Ok c') \/ (exists v, set_title v c = Ok c') \/
     (exists v, set_instructor v c = Ok c') \/ (exists v, set_credits v c = Ok c') \/
     (exists v, set_times v c = Ok c') \/
     (exists v, set_projectedEnrollment v c = Ok c') \/
     (exists v, set_currentEnrollment v c = Ok c') \/
     (exists v, set_seatsAvailable v c = Ok c') ->
     status_ok c') /\
  (forall classInfo, preserves (createAndSaveClass classInfo)) /\
  (forall http fuel subjectCode term,
     preserves (getCourseData http fuel subjectCode term)) /\
  (forall http, preserves (getTermsAndSubjects http)) /\
  (forall filepath, preserves (loadFromJson filepath)) /\
  (forall JSON_text filepath, preserves (loadFromCsv JSON_text filepath)) /\
  (forall saveLocation, preserves (saveToJson saveLocation)).
Proof.
  repeat split.
  - intros. eapply new_Class_canonical; eauto.
  - apply statusAsBool_spec. destruct H as [-> | ->]; reflexivity.
  - apply statusAsBool_spec. destruct H as [-> | ->]; reflexivity.
  - intros. eapply set_status_canonical; eauto.
  - intros c c' Hc H. unfold status_ok.
    rewrite (setter_keeps_status c c' H). exact Hc.
  - apply preserves_createAndSaveClass.
  - intros. apply preserves_getCourseData.
  - apply preserves_getTermsAndSubjects.
  - apply preserves_loadFromJson.
  - apply preserves_loadFromCsv.
  - apply preserves_saveToJson.
Qed.

(* ===================================================================== *)
(** ** The rate limiter                                                  *)
(* ===================================================================== *)

(** The wait step always returns; it touches the clock and the time stamp
    only, and the stamp it leaves is the time at which it returns. *)
Lemma rateLimit_returns (st : State) :
  exists st1,
    _logAndExecuteRateLimit st = (Done tt, st1) /\
    requests st1 = requests st /\
    courselistData st1 = courselistData st /\
    classData st1 = classData st /\
    files st1 = files st /\
    _lastRequest (_rateLimit st1) = clock st1.
Proof.
  unfold _logAndExecuteRateLimit, bind, gets, sleep, modify, ret.
  destruct (clock st - rateLimit st <? rateLimit st); simpl;
    eexists; repeat split.
Qed.

(** What the wait step compares: the current time minus the interval
    (the getter [rateLimit]), not minus [_lastRequest].  Once the clock
    shows at least twice the interval the step never suspends, however
    recent the last request. *)
Lemma rateLimit_never_waits (st : State) :
  2 * rateLimit st <= clock st ->
  clock (snd (_logAndExecuteRateLimit st)) = clock st /\
  _lastRequest (_rateLimit (snd (_logAndExecuteRateLimit st))) = clock st.
Proof.
  intros H. unfold _logAndExecuteRateLimit, bind, gets, sleep, modify, ret.
  destruct (clock st - rateLimit st <? rateLimit st) eqn:E; simpl; auto.
  apply Z.ltb_lt in E. lia.
Qed.

(** C2 (the code departs from it).  A scraper with the default interval
    of 500 ms whose last request was stamped at 1700000000000 is asked to
    wait 100 ms later, and again 100 ms after that.  Neither call
    suspends: the stamps are 100 ms apart, not 500. *)
Theorem rateLimit_gap_below_interval :
  let st := with_rateLimit (mkRateLimit 500 1700000000000)
              (initial "abcdef@wm.edu" 1700000000000 ∅) in
  fst (awaits [100; 100] st) = Done [1700000000100; 1700000000200] /\
  clock (snd (awaits [100; 100] st)) = 1700000000200 /\
  ~ spaced (rateLimit st) [1700000000100; 1700000000200].
Proof.
  repeat split; try (vm_compute; reflexivity).
  simpl. unfold rateLimit; simpl. intros [H _]. lia.
Qed.

(* ===================================================================== *)
(** ** Discovery                                                         *)
(* ===================================================================== *)

Lemma two_last {A} (l : list A) :
  (2 <= length l)%nat -> exists pre t last, l = pre ++ [t; last].
Proof.
  destruct l as [|last l] using rev_ind; [simpl; lia|].
  destruct l as [|t pre] using rev_ind; [simpl; lia|].
  intros _. exists pre, t, last. now rewrite <- app_assoc.
Qed.

Lemma secondToLast_app (pre : list string) (t last : string) (st : State) :
  secondToLast (pre ++ [t; last]) st = (Done (VStr t), st).
Proof.
  unfold secondToLast. rewrite length_app.
  change (length [t; last]) with 2%nat.
  replace (2 <=? Z.of_nat (length pre + 2)) with true
    by (symmetry; apply Z.leb_le; lia).
  replace (length pre + 2 - 2)%nat with (length pre) by lia.
  rewrite nth_error_app2 by apply Nat.le_refl.
  rewrite Nat.sub_diag. reflexivity.
Qed.

(** C5. On a listing page whose term dropdown has at least two options,
    discovery returns with the latest term set to the value of the
    second-to-last term option and the subject list set to the subject
    options without the first one, in document order. *)
Theorem getTermsAndSubjects_extracts
    (http : string -> option Page) (st : State) (page : Page)
    (termOptions subjectOptions : list string) :
  http listingUrl = Some page ->
  term_code page = Some termOptions ->
  term_subj page = Some subjectOptions ->
  (2 <= length termOptions)%nat ->
  exists st',
    getTermsAndSubjects http st = (Done tt, st') /\
    (exists pre t last,
       termOptions = pre ++ [t; last] /\
       terms_latest (courselistData st') = VStr t) /\
    (forall first rest,
       subjectOptions = first :: rest ->
       subjects (courselistData st') = Some rest) /\
    (subjectOptions = [] -> subjects (courselistData st') = Some []).
Proof.
  intros Hpage Hterms Hsubj Hlen.
  destruct (two_last termOptions Hlen) as (pre & t & last & ->).
  destruct (rateLimit_returns st) as (st1 & Hrl & _).
  unfold getTermsAndSubjects, bind at 1. rewrite Hrl.
  unfold bind at 1, httpRequest, fetch, bind at 1, modify.
  rewrite Hpage. cbn [ret]. unfold bind at 1, children.
  rewrite Hterms. cbn [ret]. unfold bind at 1. cbn [modify].
  unfold bind at 1. rewrite secondToLast_app.
  unfold bind at 1. cbn [modify]. unfold bind at 1.
  rewrite Hsubj. cbn [ret modify].
  eexists; split; [reflexivity|]. simpl. repeat split.
  - exists pre, t, last. split; reflexivity.
  - now intros first rest ->.
  - now intros ->.
Qed.

(** A listing page with three term options and four subject options:
    the latest term is ["202320"], the subjects are AFST, BIOL, CHEM. *)
Lemma getTermsAndSubjects_example :
  let http := fun url : string =>
    if String.eqb url listingUrl
    then Some (mkPage (Some ["202310"; "202320"; "0"])
                      (Some ["0"; "AFST"; "BIOL"; "CHEM"]) None)
    else None in
  let st := initial "abcdef@wm.edu" 1700000000000 ∅ in
  exists st',
    getTermsAndSubjects http st = (Done tt, st') /\
    (exists pre t last,
       ["202310"; "202320"; "0"] = pre ++ [t; last] /\
       terms_latest (courselistData st') = VStr t) /\
    (forall first rest,
       ["0"; "AFST"; "BIOL"; "CHEM"] = first :: rest ->
       subjects (courselistData st') = Some rest) /\
    (["0"; "AFST"; "BIOL"; "CHEM"] = [] -> subjects (courselistData st') = Some []).
Proof.
  intros http st.
  apply (getTermsAndSubjects_extracts http st
           (mkPage (Some ["202310"; "202320"; "0"])
                   (Some ["0"; "AFST"; "BIOL"; "CHEM"]) None)).
  - reflexivity.
  - reflexivity.
  - reflexivity.
  - simpl. lia.
Defined.







(* ===================================================================== *)
(** ** Numbers in text: [parseInt] after [toString]                      *)
(* ===================================================================== *)

Section Numerals.

Import Decimal.

Lemma append_cons (c : ascii) (s t : string) :
  (String c s ++ t)%string = String c (s ++ t)%string.
Proof. reflexivity. Qed.

Lemma append_nil (t : string) : (EmptyString ++ t)%string = t.
Proof. reflexivity. Qed.

Lemma decDigit_cases (c : ascii) :
  isDecDigit c = true ->
  In c ["0"; "1"; "2"; "3"; "4"; "5"; "6"; "7"; "8"; "9"]%char.
Proof.
  destruct c as [[] [] [] [] [] [] [] []]; vm_compute; intros H;
    try discriminate; tauto.
Qed.

Lemma numeralChar_plain (c : ascii) :
  isNumeralChar c = true ->
  isLineBreak c = false /\ isWhiteSpace c = false /\ Ascii.eqb c "*" = false.
Proof.
  destruct c as [[] [] [] [] [] [] [] []]; vm_compute; intros H;
    try discriminate; auto.
Qed.

Lemma trailer_stops (c : ascii) :
  isTrailer c = true ->
  isDecDigit c = false /\ Ascii.eqb c "x" || Ascii.eqb c "X" = false.
Proof.
  destruct c as [[] [] [] [] [] [] [] []]; vm_compute; intros H;
    try discriminate; auto.
Qed.

(** Reading the digits of a [uint] continues the accumulator the way
    [Pos.of_uint_acc] does. *)
Lemma parseDigits_uint_acc (d : uint) (suf : string) :
  forall p : positive,
    parseDigits 10 (NilEmpty.string_of_uint d ++ suf) (Z.pos p)
    = parseDigits 10 suf (Z.pos (Pos.of_uint_acc d p)).
Proof.
  induction d; intros p; [reflexivity|..];
    cbn [NilEmpty.string_of_uint Pos.of_uint_acc]; rewrite append_cons;
    cbn [parseDigits];
    match goal with
    | |- context [digitVal 10 ?c] =>
        let v := eval vm_compute in (digitVal 10 c) in
        change (digitVal 10 c) with v
    end; cbv iota; rewrite <- IHd; f_equal; lia.
Qed.

Lemma parseDigits_uint (d : uint) (suf : string) :
  parseDigits 10 (NilEmpty.string_of_uint d ++ suf) 0
  = parseDigits 10 suf (Z.of_N (Pos.of_uint d)).
Proof.
  induction d; [reflexivity|..];
    cbn [NilEmpty.string_of_uint Pos.of_uint]; rewrite append_cons;
    cbn [parseDigits];
    match goal with
    | |- context [digitVal 10 ?c] =>
        let v := eval vm_compute in (digitVal 10 c) in
        change (digitVal 10 c) with v
    end; cbv iota; try exact IHd;
    match goal with
    | |- parseDigits 10 _ ?a = _ =>
        let v := eval vm_compute in a in change a with v
    end; apply parseDigits_uint_acc.
Qed.

Lemma parseDigits_stops (suf : string) (acc : Z) :
  stops suf = true -> parseDigits 10 suf acc = acc.
Proof.
  destruct suf as [|c r]; [reflexivity|]. unfold stops, isDecDigit; simpl.
  destruct (digitVal 10 c); [discriminate|reflexivity].
Qed.

Lemma uint_first_digit (d : uint) (suf : string) :
  d <> Nil ->
  exists c r, (NilEmpty.string_of_uint d ++ suf)%string = String c r /\
              isDecDigit c = true /\
              (c = "0"%char -> stops suf = true -> noHexMark r = true).
Proof.
  intros Hd. destruct d; [congruence|..];
    cbn [NilEmpty.string_of_uint]; rewrite append_cons;
    eexists _, _; (split; [reflexivity|]); (split; [reflexivity|]);
    try (intros [=]; fail).
  intros _ Hs. destruct d; cbn [NilEmpty.string_of_uint];
    rewrite ?append_cons, ?append_nil; try reflexivity.
  destruct suf as [|c r]; [reflexivity|].
  unfold stops in Hs. apply andb_true_iff in Hs as [_ Hs]. exact Hs.
Qed.

Lemma parseMagnitude_uint (d : uint) (suf : string) :
  d <> Nil -> stops suf = true ->
  parseMagnitude 10 (NilEmpty.string_of_uint d ++ suf)
  = Int (Z.of_N (Pos.of_uint d)).
Proof.
  intros Hd Hs.
  destruct (uint_first_digit d suf Hd) as (c & r & E & Hc & _).
  unfold parseMagnitude. rewrite E. unfold isDecDigit in Hc.
  destruct (digitVal 10 c); [|discriminate].
  rewrite <- E, parseDigits_uint, parseDigits_stops by exact Hs. reflexivity.
Qed.

(** Without white space, sign or hexadecimal prefix in front, [parseInt]
    is [parseMagnitude] in radix 10. *)
Lemma parseInt_digit_first (c : ascii) (r : string) :
  isDecDigit c = true -> (c = "0"%char -> noHexMark r = true) ->
  parseInt (String c r) = parseMagnitude 10 (String c r).
Proof.
  intros Hc Hx. apply decDigit_cases in Hc. simpl in Hc.
  decompose [or] Hc; clear Hc; subst; try contradiction;
    try (unfold parseInt, parseMagnitude; cbn; reflexivity).
  specialize (Hx eq_refl). destruct r as [|x r]; [reflexivity|].
  unfold noHexMark in Hx. apply negb_true_iff in Hx.
  unfold parseInt. cbn [trimStart]. change (isWhiteSpace "0") with false.
  cbn -[Ascii.eqb parseMagnitude]. rewrite Hx. reflexivity.
Qed.

Lemma parseInt_minus_digit (c : ascii) (r : string) (m : Z) :
  isDecDigit c = true -> (c = "0"%char -> noHexMark r = true) ->
  parseMagnitude 10 (String c r) = Int m ->
  parseInt (String "-" (String c r)) = Int (- m).
Proof.
  intros Hc Hx Hm.
  assert (Hgen : parseInt (String "-" (String c r))
                 = match parseMagnitude 10 (String c r) with
                   | NaN => NaN
                   | Int m => Int (- m)
                   end).
  { unfold parseInt. cbn [trimStart]. change (isWhiteSpace "-") with false.
    cbv iota. apply decDigit_cases in Hc. simpl in Hc.
    decompose [or] Hc; clear Hc; subst; try contradiction;
      try (cbn -[Ascii.eqb parseMagnitude]; reflexivity).
    specialize (Hx eq_refl). destruct r as [|x r]; [reflexivity|].
    unfold noHexMark in Hx. apply negb_true_iff in Hx.
    cbn -[Ascii.eqb parseMagnitude]. rewrite Hx. reflexivity. }
  rewrite Hgen, Hm. reflexivity.
Qed.

Lemma Z_toString_pos (p : positive) :
  Z_toString (Z.pos p) = NilEmpty.string_of_uint (Pos.to_uint p).
Proof.
  unfold Z_toString. cbn [Z.to_int NilZero.string_of_int NilZero.string_of_uint].
  pose proof (Unsigned.to_uint_nonnil p) as Hn.
  destruct (Pos.to_uint p); [congruence|reflexivity..].
Qed.

Lemma Z_toString_neg (p : positive) :
  Z_toString (Z.neg p) = String "-" (NilEmpty.string_of_uint (Pos.to_uint p)).
Proof.
  unfold Z_toString. cbn [Z.to_int NilZero.string_of_int NilZero.string_of_uint].
  pose proof (Unsigned.to_uint_nonnil p) as Hn.
  destruct (Pos.to_uint p); [congruence|reflexivity..].
Qed.

(** [parseInt] reads back the numeral [toString] printed, whatever
    follows it, as long as that does not continue the numeral. *)
Lemma parseInt_Z_toString (z : Z) (suf : string) :
  stops suf = true -> parseInt (Z_toString z ++ suf) = Int z.
Proof.
  intros Hs. destruct z as [|p|p].
  - change (Z_toString 0) with (NilEmpty.string_of_uint (D0 Nil)).
    assert (Hd : D0 Nil <> Nil) by congruence.
    destruct (uint_first_digit (D0 Nil) suf Hd) as (c & r & E & Hc & Hx).
    pose proof (parseMagnitude_uint _ _ Hd Hs) as Hm. rewrite E in *.
    rewrite parseInt_digit_first; auto.
  - rewrite Z_toString_pos.
    pose proof (Unsigned.to_uint_nonnil p) as Hd.
    destruct (uint_first_digit _ suf Hd) as (c & r & E & Hc & Hx).
    pose proof (parseMagnitude_uint _ _ Hd Hs) as Hm. rewrite E in *.
    rewrite parseInt_digit_first, Hm, Unsigned.of_to; auto.
  - rewrite Z_toString_neg.
    pose proof (Unsigned.to_uint_nonnil p) as Hd.
    destruct (uint_first_digit _ suf Hd) as (c & r & E & Hc & Hx).
    pose proof (parseMagnitude_uint _ _ Hd Hs) as Hm.
    rewrite append_cons, E in *. rewrite Unsigned.of_to in Hm.
    rewrite (parseInt_minus_digit c r (Z.pos p) Hc) by auto. reflexivity.
Qed.

Lemma uint_numeral (d : uint) :
  allChars isNumeralChar (NilEmpty.string_of_uint d) = true.
Proof. induction d; simpl; auto. Qed.

Lemma Z_toString_numeral (z : Z) :
  allChars isNumeralChar (Z_toString z) = true.
Proof.
  destruct z as [|p|p].
  - reflexivity.
  - rewrite Z_toString_pos. apply uint_numeral.
  - rewrite Z_toString_neg. simpl. apply uint_numeral.
Qed.

End Numerals.

(* ===================================================================== *)
(** ** Normalisation of the seats-available cell                         *)
(* ===================================================================== *)

Section SeatsAvailable.

Lemma allChars_app (p : ascii -> bool) (a b : string) :
  allChars p (a ++ b) = allChars p a && allChars p b.
Proof.
  induction a as [|c a IH]; [reflexivity|].
  rewrite append_cons. simpl. now rewrite IH, andb_assoc.
Qed.

(** A numeral in front is left alone by each step of the clean-up. *)
Lemma removeLineBreaks_numeral (a b : string) :
  allChars isNumeralChar a = true ->
  removeLineBreaks (a ++ b) = (a ++ removeLineBreaks b)%string.
Proof.
  induction a as [|c a IH]; [reflexivity|]. simpl allChars.
  intros [Hc Ha]%andb_true_iff. rewrite !append_cons. simpl.
  destruct (numeralChar_plain c Hc) as (-> & _). now rewrite IH.
Qed.

Lemma removeFirst_numeral (a b : string) :
  allChars isNumeralChar a = true ->
  removeFirst "*" (a ++ b) = (a ++ removeFirst "*" b)%string.
Proof.
  induction a as [|c a IH]; [reflexivity|]. simpl allChars.
  intros [Hc Ha]%andb_true_iff. rewrite !append_cons. simpl.
  destruct (numeralChar_plain c Hc) as (_ & _ & ->). now rewrite IH.
Qed.

Lemma trimStart_numeral (c : ascii) (r : string) :
  isNumeralChar c = true -> trimStart (String c r) = String c r.
Proof.
  intros Hc. simpl. now destruct (numeralChar_plain c Hc) as (_ & -> & _).
Qed.

Lemma trimEnd_numeral (a b : string) :
  allChars isNumeralChar a = true ->
  trimEnd (a ++ b) = (a ++ trimEnd b)%string.
Proof.
  induction a as [|c a IH]; [reflexivity|]. simpl allChars.
  intros [Hc Ha]%andb_true_iff. rewrite !append_cons. simpl.
  rewrite (IH Ha). destruct (numeralChar_plain c Hc) as (_ & -> & _).
  now destruct (a ++ trimEnd b)%string.
Qed.

(** Each step keeps a trailer a trailer. *)
Lemma removeLineBreaks_trailer (s : string) :
  allChars isTrailer s = true -> allChars isTrailer (removeLineBreaks s) = true.
Proof.
  induction s as [|c s IH]; [reflexivity|]. simpl.
  intros [Hc Hs]%andb_true_iff.
  destruct (isLineBreak c); simpl; auto. now rewrite Hc, IH.
Qed.

Lemma removeFirst_trailer (x : ascii) (s : string) :
  allChars isTrailer s = true -> allChars isTrailer (removeFirst x s) = true.
Proof.
  induction s as [|c s IH]; [reflexivity|]. simpl.
  intros [Hc Hs]%andb_true_iff.
  destruct (Ascii.eqb c x); simpl; auto. now rewrite Hc, IH.
Qed.

Lemma allChars_trimEnd (p : ascii -> bool) (s : string) :
  allChars p s = true -> allChars p (trimEnd s) = true.
Proof.
  induction s as [|c s IH]; [reflexivity|]. simpl.
  intros [Hc Hs]%andb_true_iff. specialize (IH Hs).
  destruct (trimEnd s) eqn:E.
  - destruct (isWhiteSpace c); simpl; auto. now rewrite Hc.
  - simpl in *. now rewrite Hc, IH.
Qed.

Lemma trailer_is_stop (s : string) :
  allChars isTrailer s = true -> stops s = true.
Proof.
  destruct s as [|c s]; [reflexivity|]. simpl.
  intros [Hc _]%andb_true_iff.
  destruct (trailer_stops c Hc) as [-> ->]. reflexivity.
Qed.

Lemma Z_toString_cons (z : Z) :
  exists c r, Z_toString z = String c r /\ isNumeralChar c = true.
Proof.
  pose proof (Z_toString_numeral z) as Hn.
  destruct (Z_toString z) as [|c r] eqn:E.
  - exfalso. destruct z as [|p|p].
    + discriminate E.
    + rewrite Z_toString_pos in E.
      pose proof (Unsigned.to_uint_nonnil p) as Hd.
      destruct (Pos.to_uint p); [congruence|discriminate E..].
    + rewrite Z_toString_neg in E. discriminate E.
  - simpl in Hn. apply andb_true_iff in Hn as [Hc _]. eauto.
Qed.

(** White space in front goes through the first two steps and is then
    trimmed away. *)
Lemma whiteSpace_not_star (c : ascii) :
  isWhiteSpace c = true -> Ascii.eqb c "*" = false.
Proof.
  destruct c as [[] [] [] [] [] [] [] []]; vm_compute; intros H;
    try discriminate; reflexivity.
Qed.

Lemma removeLineBreaks_app (a b : string) :
  removeLineBreaks (a ++ b) = (removeLineBreaks a ++ removeLineBreaks b)%string.
Proof.
  induction a as [|c a IH]; [reflexivity|]. rewrite append_cons. simpl.
  destruct (isLineBreak c); [exact IH|]. now rewrite append_cons, IH.
Qed.

Lemma removeLineBreaks_whiteSpace (s : string) :
  allChars isWhiteSpace s = true ->
  allChars isWhiteSpace (removeLineBreaks s) = true.
Proof.
  induction s as [|c s IH]; [reflexivity|]. simpl.
  intros [Hc Hs]%andb_true_iff.
  destruct (isLineBreak c); simpl; auto. now rewrite Hc, IH.
Qed.

Lemma removeFirst_whiteSpace (a b : string) :
  allChars isWhiteSpace a = true ->
  removeFirst "*" (a ++ b) = (a ++ removeFirst "*" b)%string.
Proof.
  induction a as [|c a IH]; [reflexivity|]. simpl allChars.
  intros [Hc Ha]%andb_true_iff. rewrite !append_cons. simpl.
  rewrite (whiteSpace_not_star c Hc). now rewrite IH.
Qed.

Lemma trimStart_whiteSpace (a b : string) :
  allChars isWhiteSpace a = true -> trimStart (a ++ b) = trimStart b.
Proof.
  induction a as [|c a IH]; [reflexivity|]. simpl allChars.
  intros [Hc Ha]%andb_true_iff. rewrite append_cons. simpl.
  rewrite Hc. now apply IH.
Qed.

(** The clean-up of the seats-available setter leaves the numeral in
    front and a trailer behind it. *)
Lemma seats_cleanup (z : Z) (lead suffix : string) :
  allChars isWhiteSpace lead = true ->
  allChars isTrailer suffix = true ->
  exists rest,
    trim (removeFirst "*" (removeLineBreaks (lead ++ Z_toString z ++ suffix)))
    = (Z_toString z ++ rest)%string /\
    allChars isTrailer rest = true.
Proof.
  intros Hl Hs. pose proof (Z_toString_numeral z) as Hn.
  exists (trimEnd (removeFirst "*" (removeLineBreaks suffix))). split.
  - rewrite removeLineBreaks_app.
    rewrite removeFirst_whiteSpace by now apply removeLineBreaks_whiteSpace.
    unfold trim.
    rewrite trimStart_whiteSpace by now apply removeLineBreaks_whiteSpace.
    rewrite removeLineBreaks_numeral, removeFirst_numeral by exact Hn.
    destruct (Z_toString_cons z) as (c & r & E & Hc).
    rewrite E, append_cons, trimStart_numeral, <- append_cons, <- E by exact Hc.
    now apply trimEnd_numeral.
  - now apply allChars_trimEnd, removeFirst_trailer, removeLineBreaks_trailer.
Qed.

End SeatsAvailable.



(* ===================================================================== *)
(** ** All-subjects traversal                                            *)
(* ===================================================================== *)

Section Traversal.

Variable http : string -> option Page.

Lemma includes_In (subs : list string) (s : string) :
  In s subs -> includes subs (VStr s) = true.
Proof.
  intros H. simpl. apply existsb_exists. exists s. split; [exact H|].
  apply String.eqb_refl.
Qed.

Lemma truthy_VStr (s : string) : s <> EmptyString -> truthy (VStr s) = true.
Proof. intros H. simpl. apply String.eqb_neq in H. now rewrite H. Qed.

(** Single-subject mode for a known subject: no discovery, no membership
    error; what remains is the wait, the request and the rows. *)
Lemma getCourseData_single (n : nat) (s : string) (t : JsVal) (st : State)
    (subs : list string) :
  subjects (courselistData st) = Some subs -> In s subs -> s <> EmptyString ->
  getCourseData http (S n) (VStr s) t st =
  (_logAndExecuteRateLimit ;;
   latest <- gets (fun st => terms_latest (courselistData st)) ;;
   page <- fetch http (searchUrl (if truthy t then t else latest) (VStr s)) ;;
   table <- children (tbody page) ;;
   forEach table createAndSaveClass) st.
Proof.
  intros Hsubs Hin Hne. cbn [getCourseData].
  unfold bind at 1 2, gets at 1. rewrite Hsubs. cbn [notNull negb].
  rewrite andb_false_r. cbn [ret]. rewrite (truthy_VStr s Hne).
  unfold bind at 1 2 3, gets at 1. rewrite Hsubs. cbn [children ret].
  now rewrite (includes_In subs s Hin).
Qed.








Lemma forEach_app_fail {A} (body : A -> M unit) (pre : list A) (a : A)
    (post : list A) (e : Error) :
  forall st st1 st2,
    forEach pre body st = (Done tt, st1) ->
    body a st1 = (Raise e, st2) ->
    forEach (pre ++ a :: post) body st = (Raise e, st2).
Proof.
  induction pre as [|x pre IH]; intros st st1 st2 Hpre Ha; simpl in *.
  - injection Hpre as <-. unfold bind. now rewrite Ha.
  - unfold bind in *. destruct (body x st) as [[[]|e'|] st'];
      try discriminate. eapply IH; eauto.
Qed.


End Traversal.



(* ===================================================================== *)
(** ** Saving and loading the structured file                            *)
(* ===================================================================== *)

Section RoundTrip.

Lemma append_nil_r (s : string) : (s ++ "")%string = s.
Proof. induction s as [|c s IH]; [reflexivity|]. now rewrite append_cons, IH. Qed.

Lemma clean_numeral (z : Z) : clean (Z_toString z) = Z_toString z.
Proof.
  pose proof (Z_toString_numeral z) as Hn. unfold clean, trim.
  rewrite <- (append_nil_r (Z_toString z)) at 1.
  rewrite removeLineBreaks_numeral by exact Hn. cbn [removeLineBreaks].
  destruct (Z_toString_cons z) as (c & r & E & Hc).
  rewrite E, append_cons, trimStart_numeral, <- append_cons, <- E by exact Hc.
  rewrite trimEnd_numeral by exact Hn. cbn [trimEnd]. apply append_nil_r.
Qed.

Lemma parseInt_numeral (z : Z) : parseInt (Z_toString z) = Int z.
Proof.
  rewrite <- (append_nil_r (Z_toString z)). now apply parseInt_Z_toString.
Qed.

Lemma crn_value_numeral (z : Z) : crn_value (VStr (Z_toString z)) = Ok (Int z).
Proof. unfold crn_value; simpl. now rewrite clean_numeral, parseInt_numeral. Qed.

Lemma cleanInt_number (z : Z) : cleanInt (VNum (Int z)) = Ok (Int z).
Proof. unfold cleanInt; simpl. now rewrite clean_numeral, parseInt_numeral. Qed.

Lemma seatsAvailable_number (z : Z) :
  seatsAvailable_value (VNum (Int z)) = Ok (Int z).
Proof.
  unfold seatsAvailable_value; simpl.
  destruct (seats_cleanup z "" "" eq_refl eq_refl) as (rest & E & Hr).
  rewrite append_nil, append_nil_r in E. rewrite E.
  now rewrite parseInt_Z_toString by now apply trailer_is_stop.
Qed.

Lemma cleanOrEmpty_clean (s : string) :
  clean s = s -> cleanOrEmpty (VStr s) = Ok s.
Proof.
  intros H. unfold cleanOrEmpty; simpl.
  destruct (String.eqb s "") eqn:E; simpl.
  - apply String.eqb_eq in E. now subst.
  - now rewrite H.
Qed.

Lemma attributes_value_clean (l : list string) :
  Forall (fun a => clean a = a) l ->
  attributes_value (VArr (map VStr l)) = Ok l.
Proof.
  unfold attributes_value. induction 1 as [|a l Ha _ IH]; simpl; [reflexivity|].
  now rewrite Ha, IH.
Qed.

Lemma credits_value_saved (credits : option Num) :
  credits = None \/ (exists z, credits = Some (Int z)) ->
  credits_value (match credits with
                 | Some n => numJSON n
                 | None => VNull
                 end) = Ok credits.
Proof.
  intros [-> | [z ->]]; [reflexivity|].
  unfold credits_value. cbn [numJSON]. now rewrite cleanInt_number.
Qed.

(** Cleaning a string twice is cleaning it once. *)
Lemma removeLineBreaks_clear (s : string) :
  allChars notLineBreak (removeLineBreaks s) = true.
Proof.
  induction s as [|c s IH]; [reflexivity|]. simpl.
  destruct (isLineBreak c) eqn:E; [exact IH|]. simpl.
  unfold notLineBreak at 1. now rewrite E, IH.
Qed.

Lemma removeLineBreaks_id (s : string) :
  allChars notLineBreak s = true -> removeLineBreaks s = s.
Proof.
  induction s as [|c s IH]; [reflexivity|]. simpl.
  intros [Hc Hs]%andb_true_iff. unfold notLineBreak in Hc.
  apply negb_true_iff in Hc. now rewrite Hc, IH.
Qed.

Lemma allChars_trimStart (p : ascii -> bool) (s : string) :
  allChars p s = true -> allChars p (trimStart s) = true.
Proof.
  induction s as [|c s IH]; [reflexivity|]. simpl.
  intros [Hc Hs]%andb_true_iff.
  destruct (isWhiteSpace c); [now apply IH|]. simpl. now rewrite Hc, Hs.
Qed.

Lemma headOK_trimStart (s : string) : headOK (trimStart s) = true.
Proof.
  induction s as [|c s IH]; [reflexivity|]. simpl.
  destruct (isWhiteSpace c) eqn:E; [exact IH|]. simpl. now rewrite E.
Qed.

Lemma headOK_trimEnd (s : string) : headOK s = true -> headOK (trimEnd s) = true.
Proof.
  destruct s as [|c s]; [reflexivity|]. simpl. intros H.
  apply negb_true_iff in H.
  destruct (trimEnd s); rewrite ?H; simpl; now rewrite H.
Qed.

Lemma trimStart_headOK (s : string) : headOK s = true -> trimStart s = s.
Proof.
  destruct s as [|c s]; [reflexivity|]. simpl. intros H.
  apply negb_true_iff in H. now rewrite H.
Qed.

Lemma trimEnd_idem (s : string) : trimEnd (trimEnd s) = trimEnd s.
Proof.
  induction s as [|c s IH]; [reflexivity|]. simpl.
  destruct (trimEnd s) as [|d t] eqn:E.
  - destruct (isWhiteSpace c) eqn:W; [reflexivity|]. simpl. now rewrite W.
  - change (trimEnd (String c (String d t))) with
      (match trimEnd (String d t) with
       | EmptyString => if isWhiteSpace c then EmptyString else String c EmptyString
       | t' => String c t'
       end).
    now rewrite IH.
Qed.

Lemma clean_idem (s : string) : clean (clean s) = clean s.
Proof.
  unfold clean, trim.
  rewrite removeLineBreaks_id
    by apply allChars_trimEnd, allChars_trimStart, removeLineBreaks_clear.
  rewrite trimStart_headOK by apply headOK_trimEnd, headOK_trimStart.
  apply trimEnd_idem.
Qed.

Lemma cleanOrEmpty_is_clean (v : JsVal) (x : string) :
  cleanOrEmpty v = Ok x -> clean x = x.
Proof.
  unfold cleanOrEmpty. destruct (truthy v).
  - destruct v; simpl; try discriminate. intros [= <-]. apply clean_idem.
  - intros [= <-]. reflexivity.
Qed.

Lemma attributes_value_is_clean (v : JsVal) (l : list string) :
  attributes_value v = Ok l -> Forall (fun a => clean a = a) l.
Proof.
  unfold attributes_value. destruct v as [| | | | |vs|]; try discriminate.
  revert l. induction vs as [|a vs IH]; simpl; intros l H.
  - injection H as <-. constructor.
  - destruct a; simpl in H; try discriminate.
    destruct (mapR _ vs) as [xs|]; simpl in H; [|discriminate].
    injection H as <-. constructor; [apply clean_idem | now apply IH].
Qed.

(** One assignment of the constructor, turned into the value it stored. *)
Ltac invert_setter H :=
  match type of H with
  | rbind ?r _ = Ok _ =>
      let c := fresh "c" in
      let E := fresh "E" in
      destruct r as [c|] eqn:E; [|discriminate H];
      cbn [rbind] in H;
      unfold set_crn, set_courseID, set_attributes, set_title,
        set_instructor, set_credits, set_times, set_projectedEnrollment,
        set_currentEnrollment, set_seatsAvailable in E;
      match type of E with
      | rbind ?v _ = Ok _ =>
          let V := fresh "V" in
          destruct v eqn:V; [|discriminate E];
          cbn [rbind fresh _crn _courseID _attributes _title _instructor
               _credits _times _projectedEnrollment _currentEnrollment
               _seatsAvailable _status] in E;
          injection E as <-
      end
  end.

(** Every record the constructor returns is well formed as soon as its
    numbers parsed. *)
Lemma new_Class_wellFormed
    (a0 a1 a2 a3 a4 a5 a6 a7 a8 a9 status : JsVal) (c : ClassObj) :
  new_Class a0 a1 a2 a3 a4 a5 a6 a7 a8 a9 status = Ok c ->
  isPrimitive status = true ->
  isInt (_crn c) ->
  (_credits c = None \/ exists z, _credits c = Some (Int z)) ->
  isInt (_projectedEnrollment c) ->
  isInt (_currentEnrollment c) ->
  isInt (_seatsAvailable c) ->
  wellFormed c.
Proof.
  intros H Hp Hcrn Hcred Hpe Hce Hsa.
  pose proof (new_Class_canonical _ _ _ _ _ _ _ _ _ _ _ _ Hp H) as Hst.
  unfold new_Class in H.
  do 10 invert_setter H.
  unfold set_status in H. destruct (status_value status); [|discriminate H].
  cbn [rbind _crn _courseID _attributes _title _instructor _credits _times
       _projectedEnrollment _currentEnrollment _seatsAvailable _status] in H.
  injection H as <-.
  unfold wellFormed.
  cbn [_crn _courseID _attributes _title _instructor _credits _times
       _projectedEnrollment _currentEnrollment _seatsAvailable _status] in *.
  repeat split; auto;
    first [ eapply cleanOrEmpty_is_clean; eassumption
          | eapply attributes_value_is_clean; eassumption ].
Qed.

Ltac next_setter :=
  cbn [rbind _crn _courseID _attributes _title _instructor _credits _times
       _projectedEnrollment _currentEnrollment _seatsAvailable _status].

(** Loading one saved record: every field comes back, except that the
    status is OPEN whatever it was. *)
Lemma loadEntry_saved (c : ClassObj) (st : State) :
  wellFormed c ->
  loadEntry (Class_toJSON c) st
  = (Done tt, with_classData (classData st ++ [with_status (VStr "OPEN") c]) st).
Proof.
  destruct c as [crn cid attrs title instr cred times pe ce sa status].
  unfold wellFormed, isInt, status_ok.
  cbn [_crn _courseID _attributes _title _instructor _credits _times
       _projectedEnrollment _currentEnrollment _seatsAvailable _status].
  intros ([z ->] & Hcid & Hattrs & Htitle & Hinstr & Hcred & Htimes
          & [z1 ->] & [z2 ->] & [z3 ->] & Hst).
  assert (Hnew :
    new_Class (VStr (Z_toString z)) (VStr cid) (VArr (map VStr attrs))
      (VStr title) (VStr instr)
      (match cred with Some n => numJSON n | None => VNull end)
      (VStr times) (VNum (Int z1)) (VNum (Int z2)) (VNum (Int z3)) (VStr "OPEN")
    = Ok (mkClass (Int z) cid attrs title instr cred times
            (Int z1) (Int z2) (Int z3) (VStr "OPEN"))).
  { unfold new_Class, set_crn, set_courseID, set_attributes, set_title,
      set_instructor, set_credits, set_times, set_projectedEnrollment,
      set_currentEnrollment, set_seatsAvailable, set_status.
    cbn [fresh].
    rewrite crn_value_numeral; next_setter.
    rewrite (cleanOrEmpty_clean cid Hcid); next_setter.
    rewrite (attributes_value_clean attrs Hattrs); next_setter.
    rewrite (cleanOrEmpty_clean title Htitle); next_setter.
    rewrite (cleanOrEmpty_clean instr Hinstr); next_setter.
    rewrite (credits_value_saved cred Hcred); next_setter.
    rewrite (cleanOrEmpty_clean times Htimes); next_setter.
    rewrite cleanInt_number; next_setter.
    rewrite cleanInt_number; next_setter.
    rewrite seatsAvailable_number; next_setter. reflexivity. }
  unfold loadEntry, Class_toJSON, with_status.
  destruct Hst as [-> | ->];
    cbn -[new_Class Z_toString]; rewrite Hnew; reflexivity.
Qed.

Lemma forEach_loadEntry_saved (cs : list ClassObj) :
  Forall wellFormed cs ->
  forall st,
    forEach (map Class_toJSON cs) loadEntry st
    = (Done tt, with_classData
                  (classData st ++ map (with_status (VStr "OPEN")) cs) st).
Proof.
  induction 1 as [|c cs Hc _ IH]; intros st; simpl.
  - rewrite app_nil_r. now destruct st.
  - unfold bind. rewrite (loadEntry_saved c st Hc), IH. simpl.
    now rewrite <- app_assoc.
Qed.

(** Saving well-formed records and loading the file back returns every
    field of every record, but with every status OPEN. *)
Lemma load_after_save (saveLocation : string) (st : State) :
  Forall wellFormed (classData st) ->
  let saved := snd (saveToJson saveLocation st) in
  loadFromJson (jsonLocation saveLocation) saved
  = (Done tt, with_classData
                (map (with_status (VStr "OPEN")) (classData st)) saved).
Proof.
  intros Hwf saved. subst saved. unfold saveToJson, modify. cbn [snd].
  fold (jsonLocation saveLocation).
  unfold loadFromJson. unfold bind at 1. unfold gets. cbn [files with_files].
  rewrite lookup_insert_eq.
  unfold bind at 1. unfold modify. unfold bind at 1. cbn [iterate ret].
  rewrite forEach_loadEntry_saved by exact Hwf. reflexivity.
Qed.

Lemma reopened_same (cs : list ClassObj) :
  map (with_status (VStr "OPEN")) cs = cs <->
  Forall (fun c => _status c = VStr "OPEN") cs.
Proof.
  induction cs as [|c cs IH]; simpl.
  - split; [constructor | reflexivity].
  - split.
    + intros [= Hc Hcs]. constructor; [|now apply IH].
      rewrite <- Hc. reflexivity.
    + intros H. inversion H as [|? ? Hc Hcs]; subst.
      f_equal; [|now apply IH].
      destruct c; simpl in *. unfold with_status; simpl. now rewrite Hc.
Qed.

(** The round trip reproduces a well-formed collection exactly when none
    of its records is CLOSED. *)
Lemma roundtrip_iff_all_open (saveLocation : string) (st : State) :
  Forall wellFormed (classData st) ->
  classData (snd (loadFromJson (jsonLocation saveLocation)
                    (snd (saveToJson saveLocation st))))
  = classData st
  <-> Forall (fun c => _status c = VStr "OPEN") (classData st).
Proof.
  intros Hwf. rewrite (load_after_save saveLocation st Hwf). cbn [snd].
  unfold with_classData at 1. cbn [classData]. apply reopened_same.
Qed.

End RoundTrip.

(** C1 (the code departs from it).  A collection with one CLOSED record,
    as the constructor builds it from a table row, is saved and loaded
    back.  The file holds the status as the string ["CLOSED"], not as a
    boolean; [loadFromJson] tests that string for truthiness, so the
    record comes back OPEN and the collection is not the one saved. *)
Theorem roundtrip_reopens_closed_record :
  let c := mkClass (Int 10102) "BIOL 101" ["C100"] "Intro Biology" "Smith"
             (Some (Int 3)) "MWF 9-9:50" (Int 30) (Int 30) (Int 0)
             (VStr "CLOSED") in
  let st := with_classData [c] (initial "abcdef@wm.edu" 1700000000000 ∅) in
  let saved := snd (saveToJson "courses" st) in
  new_Class (VStr "10102") (VStr "BIOL 101") (VArr [VStr "C100"])
            (VStr "Intro Biology") (VStr "Smith") (VStr "3")
            (VStr "MWF 9-9:50") (VStr "30") (VStr "30") (VStr "0")
            (VStr "CLOSED") = Ok c /\
  files saved !! "courses.json"
  = Some (JsonDoc (VArr [VObj [("_crn", VNum (Int 10102));
                               ("_courseID", VStr "BIOL 101");
                               ("_attributes", VArr [VStr "C100"]);
                               ("_title", VStr "Intro Biology");
                               ("_instructor", VStr "Smith");
                               ("_credits", VNum (Int 3));
                               ("_times", VStr "MWF 9-9:50");
                               ("_projectedEnrollment", VNum (Int 30));
                               ("_currentEnrollment", VNum (Int 30));
                               ("_seatsAvailable", VNum (Int 0));
                               ("_status", VStr "CLOSED")]])) /\
  loadFromJson "courses.json" saved
  = (Done tt, with_classData [with_status (VStr "OPEN") c] saved) /\
  classData (snd (loadFromJson "courses.json" saved)) <> classData st.
Proof.
  intros c st saved.
  split; [vm_compute; reflexivity|].
  split; [vm_compute; reflexivity|].
  split; [vm_compute; reflexivity|].
  vm_compute. intros [=].
Qed.

(* ===================================================================== *)
(** ** Further properties: the wait step and the rows of a page          *)
(* ===================================================================== *)

Lemma bind_done {A B} (m : M A) (k : A -> M B) (st st' : State) (a : A) :
  m st = (Done a, st') -> bind m k st = k a st'.
Proof. intros H. unfold bind. now rewrite H. Qed.

Lemma bind_raise {A B} (m : M A) (k : A -> M B) (st st' : State) (e : Error) :
  m st = (Raise e, st') -> bind m k st = (Raise e, st').
Proof. intros H. unfold bind. now rewrite H. Qed.

Lemma with_classData_nil (st : State) :
  with_classData (classData st ++ []) st = st.
Proof. destruct st. unfold with_classData. simpl. now rewrite app_nil_r. Qed.

Lemma with_classData_app (st : State) (a b : list ClassObj) :
  with_classData (classData (with_classData (classData st ++ a) st) ++ b)
    (with_classData (classData st ++ a) st)
  = with_classData (classData st ++ a ++ b) st.
Proof. unfold with_classData. simpl. now rewrite <- app_assoc. Qed.

(** The wait step as one assignment. *)
Lemma rateLimit_run (st : State) :
  let t := Z.max (clock st) (2 * rateLimit st) in
  _logAndExecuteRateLimit st
  = (Done tt, with_rateLimit (mkRateLimit (rateLimit st) t) (with_clock t st)).
Proof.
  unfold _logAndExecuteRateLimit, bind, gets, sleep, modify, ret.
  destruct (clock st - rateLimit st <? rateLimit st) eqn:E; cbn.
  - apply Z.ltb_lt in E. rewrite Z.max_r by lia.
    replace (clock st + (rateLimit st - (clock st - rateLimit st)))
      with (2 * rateLimit st) by lia.
    reflexivity.
  - apply Z.ltb_ge in E. rewrite Z.max_l by lia. reflexivity.
Qed.


Ltac stored :=
  cbn [rbind _crn _courseID _attributes _title _instructor _credits _times
       _projectedEnrollment _currentEnrollment _seatsAvailable _status].

(** The constructor applied to the cells of a row: only the status can
    make it throw. *)
Lemma cleanOrEmpty_VStr (s : string) : cleanOrEmpty (VStr s) = Ok (clean s).
Proof.
  unfold cleanOrEmpty; simpl. destruct (String.eqb s "") eqn:E; simpl; [|reflexivity].
  apply String.eqb_eq in E. now subst.
Qed.

Lemma attributes_value_VStr (l : list string) :
  attributes_value (VArr (map VStr l)) = Ok (map clean l).
Proof.
  unfold attributes_value. induction l as [|a l IH]; simpl; [reflexivity|].
  now rewrite IH.
Qed.

Lemma new_Class_cells (c0 c1 c3 c4 c5 c6 c7 c8 c9 : string) (attrs : list string)
    (status : JsVal) :
  new_Class (VStr c0) (VStr c1) (VArr (map VStr attrs)) (VStr c3) (VStr c4)
    (VStr c5) (VStr c6) (VStr c7) (VStr c8) (VStr c9) status
  = rbind (status_value status) (fun s =>
      Ok (mkClass (parseInt (clean c0)) (clean c1) (map clean attrs) (clean c3)
            (clean c4) (Some (parseInt (clean c5))) (clean c6)
            (parseInt (clean c7)) (parseInt (clean c8))
            (parseInt (trim (removeFirst "*" (removeLineBreaks c9)))) s)).
Proof.
  unfold new_Class, set_crn, set_courseID, set_attributes, set_title,
    set_instructor, set_credits, set_times, set_projectedEnrollment,
    set_currentEnrollment, set_seatsAvailable, set_status.
  cbn [fresh].
  unfold crn_value at 1. cbn [asString rbind]. stored.
  rewrite (cleanOrEmpty_VStr c1); stored.
  rewrite (attributes_value_VStr attrs); stored.
  rewrite (cleanOrEmpty_VStr c3); stored.
  rewrite (cleanOrEmpty_VStr c4); stored.
  unfold credits_value, cleanInt, toStringOf, seatsAvailable_value.
  cbn [isNullish ToString rbind]. stored.
  rewrite (cleanOrEmpty_VStr c6); stored.
  reflexivity.
Qed.

Lemma status_value_other (s : string) :
  s <> "OPEN"%string -> s <> "CLOSED"%string ->
  status_value (VStr s) = Throw StatusError.
Proof.
  intros H1 H2. unfold status_value. cbn [isNullish looseEqWord].
  apply String.eqb_neq in H1, H2. now rewrite H1, H2.
Qed.

Lemma status_value_token (s : string) :
  s = "OPEN"%string \/ s = "CLOSED"%string ->
  status_value (VStr s) = Ok (VStr s).
Proof. intros [-> | ->]; reflexivity. Qed.

Lemma createAndSaveClass_pushes : pushes createAndSaveClass.
Proof.
  intros row. unfold createAndSaveClass.
  do 11 (destruct row as [|? row]; [right; eexists; reflexivity|]).
  destruct row; [|right; eexists; reflexivity].
  unfold bind, liftR.
  destruct (new_Class _ _ _ _ _ _ _ _ _ _ _) as [cls|e].
  - left. exists cls. reflexivity.
  - right. exists e. reflexivity.
Qed.

(** A loop whose body pushes appends a list of records fixed by the
    items, up to the first item that throws. *)
Lemma forEach_pushes {A} (body : A -> M unit) (l : list A) :
  pushes body ->
  exists out added,
    out <> NoFuel /\
    forall st, forEach l body st
               = (out, with_classData (classData st ++ added) st).
Proof.
  intros Hb. induction l as [|a l (out & added & Hout & IH)].
  - exists (Done tt), []. split; [discriminate|].
    intros st. simpl. now rewrite with_classData_nil.
  - destruct (Hb a) as [[cls Ha] | [e Ha]].
    + exists out, (cls :: added). split; [exact Hout|]. intros st.
      simpl. rewrite (bind_done _ _ _ _ _ (Ha st)), IH.
      now rewrite (with_classData_app st [cls] added).
    + exists (Raise e), []. split; [discriminate|]. intros st.
      simpl. rewrite (bind_raise _ _ _ _ _ (Ha st)).
      now rewrite with_classData_nil.
Qed.

(** X2. What a row does to the collection.  A row that does not have
    exactly eleven cells is refused with a [ScraperError]; a row of
    eleven cells is refused, with a [StatusError], exactly when its last
    cell is neither OPEN nor CLOSED, whatever the other cells hold; a
    refused row leaves the scraper as it was.  Every other row appends
    exactly one record, with that status, and changes nothing else. *)
Theorem createAndSaveClass_outcome (row : list string) (st : State) :
  (length row <> 11%nat ->
   createAndSaveClass row st
   = (Raise (ScraperError
               "Invalid classInfo parameter. Must be an array of length 11."), st)) /\
  (length row = 11%nat ->
   nth 10 row EmptyString <> "OPEN"%string ->
   nth 10 row EmptyString <> "CLOSED"%string ->
   createAndSaveClass row st = (Raise StatusError, st)) /\
  (length row = 11%nat ->
   nth 10 row EmptyString = "OPEN"%string \/
   nth 10 row EmptyString = "CLOSED"%string ->
   exists cls,
     createAndSaveClass row st
     = (Done tt, with_classData (classData st ++ [cls]) st) /\
     _status cls = VStr (nth 10 row EmptyString)).
Proof.
  unfold createAndSaveClass.
  do 11 (destruct row as [|? row];
         [split; [reflexivity | split; intros [=]]|]).
  destruct row as [|? row];
    [|split; [reflexivity | split; intros [=]]].
  cbn [nth length]. rewrite new_Class_cells.
  split; [intros H; now contradiction H|]. split.
  - intros _ H1 H2. now rewrite (status_value_other _ H1 H2).
  - intros _ H. rewrite (status_value_token _ H). cbn [rbind liftR].
    eexists. split; reflexivity.
Qed.






Lemma reads_example (lead digits trail : string) (z : Z) :
  allChars isWhiteSpace lead = true ->
  allChars isTrailer trail = true ->
  Z_toString z = digits ->
  reads (lead ++ digits ++ trail) z.
Proof. intros Hl Ht <-. now exists lead, trail. Qed.


(* ===================================================================== *)
(** ** Further properties: single-subject mode                           *)
(* ===================================================================== *)

Section SingleSubject.

Variable http : string -> option Page.

Lemma includes_not_In (subs : list string) (s : string) :
  ~ In s subs -> includes subs (VStr s) = false.
Proof.
  intros H. simpl. apply not_true_is_false. intros E.
  apply existsb_exists in E as (x & Hx & E). apply String.eqb_eq in E.
  now subst.
Qed.

(** X4. With the subject list known, a call for a non-empty subject
    code that is not in the list throws a [ScraperError] straight away:
    the scraper does not wait, sends no request, and is left exactly as
    it was. *)
Theorem unknown_subject_is_refused_before_any_request
    (n : nat) (s : string) (t : JsVal) (st : State) (subs : list string) :
  subjects (courselistData st) = Some subs ->
  s <> EmptyString ->
  ~ In s subs ->
  getCourseData http (S n) (VStr s) t st
  = (Raise (ScraperError
              ("Subject code " ++ s
               ++ " is not found. Have you called getTermAndSubjects()?")), st).
Proof.
  intros Hsubs Hne Hin. cbn [getCourseData].
  unfold bind at 1 2, gets at 1. rewrite Hsubs. cbn [notNull negb].
  rewrite andb_false_r. cbn [ret]. rewrite (truthy_VStr s Hne).
  unfold bind at 1 2 3, gets at 1. rewrite Hsubs. cbn [children ret].
  now rewrite (includes_not_In subs s Hin).
Qed.

(** A single-subject call for a known subject, from any state with the
    same course-list data: the records it appends and its outcome are
    fixed by the page. *)
Lemma single_subject_run (n : nat) (s : string) (t : JsVal) (d : IData)
    (subs : list string) :
  subjects d = Some subs -> In s subs -> s <> EmptyString ->
  exists out added,
    out <> NoFuel /\
    forall st, courselistData st = d ->
      exists st',
        getCourseData http (S n) (VStr s) t st = (out, st') /\
        classData st' = classData st ++ added /\
        courselistData st' = d /\
        requests st' = requests st
                       ++ [searchUrl (if truthy t then t else terms_latest d) (VStr s)].
Proof.
  intros Hsubs Hin Hne.
  set (url := searchUrl (if truthy t then t else terms_latest d) (VStr s)).
  assert (Hrun : forall st, courselistData st = d ->
            getCourseData http (S n) (VStr s) t st
            = (page <- fetch http url ;;
               table <- children (tbody page) ;;
               forEach table createAndSaveClass)
                (snd (_logAndExecuteRateLimit st)) /\
            classData (snd (_logAndExecuteRateLimit st)) = classData st /\
            courselistData (snd (_logAndExecuteRateLimit st)) = d /\
            requests (snd (_logAndExecuteRateLimit st)) = requests st).
  { intros st Hd.
    rewrite (getCourseData_single http n s t st subs) by (subst d; auto).
    pose proof (rateLimit_run st) as Hrl. cbv zeta in Hrl.
    rewrite (bind_done _ _ _ _ _ Hrl), Hrl. cbn [snd].
    unfold bind at 1, gets at 1.
    cbn [courselistData with_rateLimit with_clock classData requests].
    rewrite Hd. fold url. auto. }
  destruct (http url) as [page|] eqn:Hp; [destruct (tbody page) as [table|] eqn:Ht|].
  - destruct (forEach_pushes createAndSaveClass table createAndSaveClass_pushes)
      as (out & added & Hout & Hfor).
    exists out, added. split; [exact Hout|]. intros st Hd.
    destruct (Hrun st Hd) as (-> & Hc & Hcd & Hr).
    eexists. split.
    + unfold bind at 1, fetch, bind at 1, modify. rewrite Hp. cbn [ret].
      unfold bind at 1. rewrite Ht. cbn [children ret]. apply Hfor.
    + cbn [classData courselistData requests with_classData with_requests].
      now rewrite Hc, Hcd, Hr.
  - exists (Raise TypeError), []. split; [discriminate|]. intros st Hd.
    destruct (Hrun st Hd) as (-> & Hc & Hcd & Hr).
    eexists. split.
    + unfold bind at 1, fetch, bind at 1, modify. rewrite Hp. cbn [ret].
      unfold bind at 1. rewrite Ht. cbn [children raise]. reflexivity.
    + cbn [classData courselistData requests with_classData with_requests].
      now rewrite Hc, Hcd, Hr, app_nil_r.
  - exists (Raise FetchError), []. split; [discriminate|]. intros st Hd.
    destruct (Hrun st Hd) as (-> & Hc & Hcd & Hr).
    eexists. split.
    + unfold bind at 1, fetch, bind at 1, modify. rewrite Hp. cbn [raise].
      reflexivity.
    + cbn [classData courselistData requests with_classData with_requests].
      now rewrite Hc, Hcd, Hr, app_nil_r.
Qed.

(** X5. Scraping does not look at what is already stored.  Two
    single-subject calls in a row for the same known subject end the same
    way (both return, or both throw the same error), the second sends the
    same request again, and every record the first call added is added a
    second time: the collection ends as the old records followed by two
    copies of the new ones. *)
Theorem rescraping_a_subject_duplicates_its_records
    (n : nat) (s : string) (t : JsVal) (st : State) (subs : list string) :
  subjects (courselistData st) = Some subs -> In s subs -> s <> EmptyString ->
  let run := getCourseData http (S n) (VStr s) t in
  let url := searchUrl (effectiveTerm t st) (VStr s) in
  exists added,
    classData (snd (run st)) = classData st ++ added /\
    classData (snd (run (snd (run st)))) = classData st ++ added ++ added /\
    requests (snd (run (snd (run st)))) = requests st ++ [url; url] /\
    fst (run (snd (run st))) = fst (run st) /\
    fst (run st) <> NoFuel.
Proof.
  intros Hsubs Hin Hne run url. subst run url. unfold effectiveTerm.
  destruct (single_subject_run n s t (courselistData st) subs Hsubs Hin Hne)
    as (out & added & Hout & Hrun).
  destruct (Hrun st eq_refl) as (st1 & E1 & Hc1 & Hd1 & Hr1).
  destruct (Hrun st1 Hd1) as (st2 & E2 & Hc2 & Hd2 & Hr2).
  exists added. rewrite E1. cbn [fst snd]. rewrite E2. cbn [fst snd].
  rewrite Hc2, Hc1, Hr2, Hr1, <- !app_assoc. auto.
Qed.

End SingleSubject.

Lemma unknown_subject_example :
  let st := with_courselistData (mkData (VStr "202410") None (Some ["BIOL"; "CHEM"]))
              (initial "abcdef@wm.edu" 1700000000000 ∅) in
  getCourseData (fun _ => Some (mkPage None None (Some []))) 1 (VStr "MATH") VUndef st
  = (Raise (ScraperError
              "Subject code MATH is not found. Have you called getTermAndSubjects()?"),
     st).
Proof.
  intros st.
  apply (unknown_subject_is_refused_before_any_request
           (fun _ => Some (mkPage None None (Some []))) 0 "MATH" VUndef st
           ["BIOL"; "CHEM"]).
  - reflexivity.
  - discriminate.
  - intros [H | [H | []]]; discriminate H.
Defined.

Lemma rescraping_example :
  let http := fun _ : string =>
    Some (mkPage None None
            (Some [["10102"; "BIOL 101"; "C100"; "Intro Biology"; "Smith"; "3";
                    "MWF 9-9:50"; "30"; "25"; "5*"; "OPEN"]])) in
  let st := with_courselistData (mkData (VStr "202410") None (Some ["BIOL"]))
              (initial "abcdef@wm.edu" 1700000000000 ∅) in
  let run := getCourseData http 1 (VStr "BIOL") VUndef in
  exists added,
    classData (snd (run st)) = classData st ++ added /\
    classData (snd (run (snd (run st)))) = classData st ++ added ++ added.
Proof.
  intros http st run.
  destruct (rescraping_a_subject_duplicates_its_records
              http 0 "BIOL" VUndef st ["BIOL"] eq_refl (or_introl eq_refl))
    as (added & H1 & H2 & _).
  - discriminate.
  - exists added. split; assumption.
Defined.

(* ===================================================================== *)
(** ** Further properties: discovery                                     *)
(* ===================================================================== *)

Lemma secondToLast_short (terms : list string) (st : State) :
  (length terms < 2)%nat -> secondToLast terms st = (Raise TypeError, st).
Proof.
  intros H. unfold secondToLast.
  destruct (2 <=? Z.of_nat (length terms)) eqn:E; [|reflexivity].
  apply Z.leb_le in E. lia.
Qed.

Lemma secondToLast_long (terms : list string) (st : State) :
  (2 <= length terms)%nat ->
  secondToLast terms st
  = (Done (VStr (nth (length terms - 2) terms EmptyString)), st).
Proof.
  intros H. unfold secondToLast.
  destruct (2 <=? Z.of_nat (length terms)) eqn:E.
  - rewrite (nth_error_nth' terms EmptyString) by lia. reflexivity.
  - apply Z.leb_gt in E. lia.
Qed.

(** The run of discovery, by cases on what the server answers. *)
Lemma getTermsAndSubjects_run (http : string -> option Page) (st : State) :
  let t := Z.max (clock st) (2 * rateLimit st) in
  let st1 := with_requests (requests st ++ [listingUrl])
               (with_rateLimit (mkRateLimit (rateLimit st) t) (with_clock t st)) in
  let old := courselistData st in
  getTermsAndSubjects http st
  = match http listingUrl with
    | None => (Raise (ScraperError "fetch"), st1)
    | Some page =>
        match term_code page with
        | None => (Raise TypeError, st1)
        | Some terms =>
            if (length terms <? 2)%nat
            then (Raise TypeError,
                  with_courselistData
                    (mkData (terms_latest old) (Some terms) (subjects old)) st1)
            else
              let latest := VStr (nth (length terms - 2) terms EmptyString) in
              match term_subj page with
              | None =>
                  (Raise TypeError,
                   with_courselistData (mkData latest (Some terms) (subjects old)) st1)
              | Some subjectOptions =>
                  (Done tt,
                   with_courselistData
                     (mkData latest (Some terms) (Some (tl subjectOptions))) st1)
              end
        end
    end.
Proof.
  intros t st1 old. subst st1 old.
  pose proof (rateLimit_run st) as Hrl. cbv zeta in Hrl. fold t in Hrl.
  unfold getTermsAndSubjects. rewrite (bind_done _ _ _ _ _ Hrl). clear Hrl.
  unfold bind at 1, httpRequest, fetch, bind at 1, modify.
  destruct (http listingUrl) as [page|]; cbn [ret raise]; [|reflexivity].
  unfold bind at 1.
  destruct (term_code page) as [terms|]; cbn [children ret raise]; [|reflexivity].
  unfold bind at 1. unfold bind at 1.
  destruct (length terms <? 2)%nat eqn:E.
  - apply Nat.ltb_lt in E. rewrite (secondToLast_short terms _ E). reflexivity.
  - apply Nat.ltb_ge in E. rewrite (secondToLast_long terms _ E).
    unfold bind at 1. unfold bind at 1.
    destruct (term_subj page) as [subjectOptions|]; reflexivity.
Qed.

(** X6. Discovery, case by case.  Whatever the server answers, the
    method sends exactly one request, for the listing page, and leaves
    the records and the files alone.  It is not all-or-nothing on the
    course-list data: a page with fewer than two term options makes it
    throw with the list of terms already replaced, and a page without
    the subject selector makes it throw with the terms and the latest
    term already replaced; in both cases the old subjects stay. *)
Theorem discovery_outcome (http : string -> option Page) (st : State) :
  let r := getTermsAndSubjects http st in
  let old := courselistData st in
  requests (snd r) = requests st ++ [listingUrl] /\
  classData (snd r) = classData st /\
  files (snd r) = files st /\
  (fst r, courselistData (snd r))
  = match http listingUrl with
    | None => (Raise (ScraperError "fetch"), old)
    | Some page =>
        match term_code page with
        | None => (Raise TypeError, old)
        | Some terms =>
            if (length terms <? 2)%nat
            then (Raise TypeError,
                  mkData (terms_latest old) (Some terms) (subjects old))
            else
              let latest := VStr (nth (length terms - 2) terms EmptyString) in
              match term_subj page with
              | None => (Raise TypeError, mkData latest (Some terms) (subjects old))
              | Some subjectOptions =>
                  (Done tt, mkData latest (Some terms) (Some (tl subjectOptions)))
              end
        end
    end.
Proof.
  intros r old. subst r old.
  rewrite (getTermsAndSubjects_run http st). cbv zeta.
  destruct (http listingUrl) as [page|]; [|auto].
  destruct (term_code page) as [terms|]; [|auto].
  destruct (length terms <? 2)%nat; [auto|].
  destruct (term_subj page); auto.
Qed.

(* ===================================================================== *)
(** ** Further properties: structured files                              *)
(* ===================================================================== *)

Lemma endsWith_app (a b : string) : endsWith (a ++ b) b = true.
Proof.
  induction a as [|c a IH].
  - rewrite append_nil. destruct b; simpl; rewrite ?Ascii.eqb_refl, ?String.eqb_refl;
      reflexivity.
  - rewrite append_cons. cbn [endsWith]. rewrite IH. apply orb_true_r.
Qed.

Lemma jsonLocation_json (p : string) : endsWith (jsonLocation p) ".json" = true.
Proof.
  unfold jsonLocation. destruct (endsWith p ".json") eqn:E; [exact E|].
  apply endsWith_app.
Qed.

(** X7. Where [saveToJson] writes.  The file written always has a
    name ending in [.json]; a location given with or without the
    extension names the same file, so saving to either is the same
    operation.  The save stores the current records under that name,
    replacing what was there, and touches neither the other files nor
    the collection. *)
Theorem saveToJson_location (saveLocation : string) (st : State) :
  let st' := snd (saveToJson saveLocation st) in
  endsWith (jsonLocation saveLocation) ".json" = true /\
  saveToJson (jsonLocation saveLocation) st = saveToJson saveLocation st /\
  files st' !! jsonLocation saveLocation
  = Some (JsonDoc (VArr (map Class_toJSON (classData st)))) /\
  (forall other, other <> jsonLocation saveLocation ->
                 files st' !! other = files st !! other) /\
  classData st' = classData st /\
  fst (saveToJson saveLocation st) = Done tt.
Proof.
  intros st'. subst st'. split; [apply jsonLocation_json|]. split.
  - unfold saveToJson. fold (jsonLocation saveLocation).
    fold (jsonLocation (jsonLocation saveLocation)).
    unfold jsonLocation at 1. now rewrite jsonLocation_json.
  - unfold saveToJson, modify. fold (jsonLocation saveLocation).
    cbn [fst snd files classData with_files].
    split; [apply lookup_insert_eq|]. split; [|auto].
    intros other Hne. now apply lookup_insert_ne.
Qed.




Lemma loadEntry_pushes : pushes loadEntry.
Proof.
  intros entry. unfold loadEntry.
  assert (Hobj : forall get : string -> JsVal,
    (exists cls, forall st,
       (crn <- liftR (toStringOf (get "_crn")) ;;
        cls <- liftR (new_Class (VStr crn) (get "_courseID") (get "_attributes")
                        (get "_title") (get "_instructor") (get "_credits")
                        (get "_times") (get "_projectedEnrollment")
                        (get "_currentEnrollment") (get "_seatsAvailable")
                        (VStr (if truthy (get "_status") then "OPEN" else "CLOSED"))) ;;
        modify (fun st => with_classData (classData st ++ [cls]) st)) st
       = (Done tt, with_classData (classData st ++ [cls]) st)) \/
    (exists e, forall st,
       (crn <- liftR (toStringOf (get "_crn")) ;;
        cls <- liftR (new_Class (VStr crn) (get "_courseID") (get "_attributes")
                        (get "_title") (get "_instructor") (get "_credits")
                        (get "_times") (get "_projectedEnrollment")
                        (get "_currentEnrollment") (get "_seatsAvailable")
                        (VStr (if truthy (get "_status") then "OPEN" else "CLOSED"))) ;;
        modify (fun st => with_classData (classData st ++ [cls]) st)) st
       = (Raise e, st))).
  { intros get. unfold bind, liftR.
    destruct (toStringOf (get "_crn")) as [crn|e]; cbn [ret raise];
      [|right; now exists e].
    destruct (new_Class (VStr crn) (get "_courseID") (get "_attributes")
                (get "_title") (get "_instructor") (get "_credits")
                (get "_times") (get "_projectedEnrollment")
                (get "_currentEnrollment") (get "_seatsAvailable")
                (VStr (if truthy (get "_status") then "OPEN" else "CLOSED")))
      as [cls|e]; cbn [ret raise modify];
      [left; now exists cls | right; now exists e]. }
  destruct entry as [| | b | n | s | l | fields];
    try (right; exists TypeError; reflexivity).
  exact (Hobj (fun k => lookupField k fields)).
Qed.

(** X9. Loading replaces, it never merges: from a file that parses,
    the outcome and the collection left behind are the same whatever
    records the scraper held before, and none of those survive. *)
Theorem loadFromJson_replaces (filepath : string) (st : State) (data : JsVal) :
  files st !! filepath = Some (JsonDoc data) ->
  exists out loaded,
    out <> NoFuel /\
    forall before,
      loadFromJson filepath (with_classData before st)
      = (out, with_classData loaded st).
Proof.
  intros Hfile. unfold loadFromJson.
  destruct data as [| | b | n | s | l | fields];
    try (exists (Raise TypeError), []; split; [discriminate|]; intros before;
         unfold bind at 1, gets; cbn [files with_classData]; rewrite Hfile;
         reflexivity).
  - destruct (forEach_pushes loadEntry
                (map (fun c => VStr (String c EmptyString)) (list_ascii_of_string s))
                loadEntry_pushes) as (out & added & Hout & Hfor).
    exists out, added. split; [exact Hout|]. intros before.
    unfold bind at 1, gets; cbn [files with_classData]; rewrite Hfile.
    unfold bind at 1, modify. unfold bind at 1. cbn [iterate ret].
    rewrite Hfor. reflexivity.
  - destruct (forEach_pushes loadEntry l loadEntry_pushes)
      as (out & added & Hout & Hfor).
    exists out, added. split; [exact Hout|]. intros before.
    unfold bind at 1, gets; cbn [files with_classData]; rewrite Hfile.
    unfold bind at 1, modify. unfold bind at 1. cbn [iterate ret].
    rewrite Hfor. reflexivity.
Qed.

Lemma loadFromJson_replaces_example :
  let st := initial "abcdef@wm.edu" 1700000000000
              {[ "courses.json" := JsonDoc (VArr []) ]} in
  exists out loaded,
    forall before,
      loadFromJson "courses.json" (with_classData before st)
      = (out, with_classData loaded st).
Proof.
  intros st.
  destruct (loadFromJson_replaces "courses.json" st (VArr []) eq_refl)
    as (out & loaded & _ & H).
  exists out, loaded. exact H.
Defined.

(** X10. A file that parses but does not hold a list (an object, a
    number, a boolean, [null]) makes the load throw a [TypeError] after
    the collection has been emptied: the records held before are lost. *)
Theorem loadFromJson_wrong_shape_empties_collection
    (filepath : string) (st : State) (data : JsVal) :
  files st !! filepath = Some (JsonDoc data) ->
  isIterable data = false ->
  loadFromJson filepath st = (Raise TypeError, with_classData [] st).
Proof.
  intros Hfile Hit. unfold loadFromJson.
  unfold bind at 1, gets. rewrite Hfile.
  destruct data; try discriminate Hit; reflexivity.
Qed.

Lemma loadFromJson_wrong_shape_example :
  let c := mkClass (Int 10102) "BIOL 101" ["C100"] "Intro Biology" "Smith"
             (Some (Int 3)) "MWF 9-9:50" (Int 30) (Int 25) (Int 5) (VStr "OPEN") in
  let st := with_classData [c]
              (initial "abcdef@wm.edu" 1700000000000
                 {[ "courses.json" := JsonDoc (Class_toJSON c) ]}) in
  loadFromJson "courses.json" st = (Raise TypeError, with_classData [] st).
Proof.
  intros c st.
  apply (loadFromJson_wrong_shape_empties_collection "courses.json" st (Class_toJSON c));
    reflexivity.
Defined.





(* ===================================================================== *)
(** ** Further properties: the strings of a record                       *)
(* ===================================================================== *)

Lemma lastOK_trimEnd (s : string) : lastOK (trimEnd s) = true.
Proof.
  induction s as [|c s IH]; [reflexivity|]. cbn [trimEnd].
  destruct (trimEnd s) as [|d t].
  - destruct (isWhiteSpace c) eqn:E; [reflexivity|]. cbn. now rewrite E.
  - exact IH.
Qed.

Lemma clean_tidy (s : string) : tidy (clean s).
Proof.
  unfold tidy, clean, trim. repeat split.
  - apply allChars_trimEnd, allChars_trimStart, removeLineBreaks_clear.
  - apply headOK_trimEnd, headOK_trimStart.
  - apply lastOK_trimEnd.
Qed.

Lemma fixed_tidy (s : string) : clean s = s -> tidy s.
Proof. intros <-. apply clean_tidy. Qed.

Ltac field_stored H :=
  match type of H with
  | rbind ?r _ = Ok _ =>
      let c := fresh "c" in
      let E := fresh "E" in
      destruct r as [c|] eqn:E; [|discriminate H];
      cbn [rbind] in H;
      unfold set_crn, set_courseID, set_attributes, set_title,
        set_instructor, set_credits, set_times, set_projectedEnrollment,
        set_currentEnrollment, set_seatsAvailable in E;
      match type of E with
      | rbind ?v _ = Ok _ =>
          let V := fresh "V" in
          destruct v eqn:V; [|discriminate E];
          cbn [rbind fresh _crn _courseID _attributes _title _instructor
               _credits _times _projectedEnrollment _currentEnrollment
               _seatsAvailable _status] in E;
          injection E as <-
      end
  end.

(** The strings of a record the constructor returned are what the
    setters made of the arguments. *)
Lemma new_Class_strings
    (a0 a1 a2 a3 a4 a5 a6 a7 a8 a9 a10 : JsVal) (c : ClassObj) :
  new_Class a0 a1 a2 a3 a4 a5 a6 a7 a8 a9 a10 = Ok c ->
  cleanOrEmpty a1 = Ok (_courseID c) /\
  attributes_value a2 = Ok (_attributes c) /\
  cleanOrEmpty a3 = Ok (_title c) /\
  cleanOrEmpty a4 = Ok (_instructor c) /\
  cleanOrEmpty a6 = Ok (_times c).
Proof.
  intros H. unfold new_Class in H.
  do 10 field_stored H.
  unfold set_status in H. destruct (status_value a10); [|discriminate H].
  cbn [rbind _crn _courseID _attributes _title _instructor _credits _times
       _projectedEnrollment _currentEnrollment _seatsAvailable _status] in H.
  injection H as <-.
  cbn [_crn _courseID _attributes _title _instructor _credits _times
       _projectedEnrollment _currentEnrollment _seatsAvailable _status].
  auto.
Qed.

Lemma cleanOrEmpty_tidy (v : JsVal) (x : string) :
  cleanOrEmpty v = Ok x -> tidy x.
Proof. intros H. apply fixed_tidy. eapply cleanOrEmpty_is_clean, H. Qed.

Lemma attributes_value_tidy (v : JsVal) (l : list string) :
  attributes_value v = Ok l -> Forall tidy l.
Proof.
  intros H. eapply List.Forall_impl; [|eapply attributes_value_is_clean, H].
  exact fixed_tidy.
Qed.

(** X12. Whatever arguments the constructor is given, a record it
    returns holds tidy strings: the course ID, the title, the
    instructor, the times and every attribute have no carriage return
    or line feed anywhere and no white space at either end. *)
Theorem constructed_strings_are_tidy
    (a0 a1 a2 a3 a4 a5 a6 a7 a8 a9 a10 : JsVal) (c : ClassObj) :
  new_Class a0 a1 a2 a3 a4 a5 a6 a7 a8 a9 a10 = Ok c ->
  tidy (_courseID c) /\ tidy (_title c) /\ tidy (_instructor c) /\
  tidy (_times c) /\ Forall tidy (_attributes c).
Proof.
  intros H.
  destruct (new_Class_strings _ _ _ _ _ _ _ _ _ _ _ _ H)
    as (Hid & Hattrs & Htitle & Hinstr & Htimes).
  split; [exact (cleanOrEmpty_tidy _ _ Hid)|].
  split; [exact (cleanOrEmpty_tidy _ _ Htitle)|].
  split; [exact (cleanOrEmpty_tidy _ _ Hinstr)|].
  split; [exact (cleanOrEmpty_tidy _ _ Htimes)|].
  exact (attributes_value_tidy _ _ Hattrs).
Qed.

Lemma constructed_strings_example :
  let c := mkClass (Int 10102) "BIOL 101" ["C100"; "GER 2A"] "Intro  Biology"
             "Smith, J" (Some (Int 3)) "" (Int 30) (Int 25) (Int 5)
             (VStr "CLOSED") in
  tidy (_courseID c) /\ tidy (_title c) /\ tidy (_instructor c) /\
  tidy (_times c) /\ Forall tidy (_attributes c).
Proof.
  intros c.
  apply (constructed_strings_are_tidy
           (VStr "10102") (VStr (" BIOL 101" ++ LF))
           (VArr [VStr "C100 "; VStr (LF ++ "GER 2A")])
           (VStr ("Intro " ++ LF ++ " Biology  ")) (VStr "Smith, J") (VNum (Int 3))
           VUndef (VStr "30") (VStr "25") (VStr "5*") VNull c).
  vm_compute. reflexivity.
Defined.

(* ===================================================================== *)
(** ** Further properties: queries                                       *)
(* ===================================================================== *)

Lemma collectByAttribute_filter (attribute : string) (classes found : list ClassObj) :
  collectByAttribute attribute classes found
  = found ++ List.filter (fun c => existsb (String.eqb attribute) (_attributes c))
               classes.
Proof.
  revert found. induction classes as [|c classes IH]; intros found; simpl.
  - now rewrite app_nil_r.
  - rewrite IH. destruct (existsb _ _); [|reflexivity].
    now rewrite <- app_assoc.
Qed.

Lemma filter_sublist {A} (p : A -> bool) (l : list A) :
  sublist (List.filter p l) l.
Proof.
  induction l as [|x l IH]; simpl; [constructor|].
  destruct (p x); now constructor.
Qed.

Lemma existsb_eqb_In (a : string) (l : list string) :
  existsb (String.eqb a) l = true <-> In a l.
Proof.
  rewrite existsb_exists. split.
  - intros (x & Hx & E). apply String.eqb_eq in E. now subst.
  - intros H. exists a. split; [exact H | apply String.eqb_refl].
Qed.

(** X13. The attribute query returns exactly the records that carry
    the attribute (as one of their attribute strings, compared whole and
    case-sensitively), each as often as it is stored and in the order of
    the collection. *)
Theorem findClassesByAttribute_exact (attribute : string) (st : State) :
  (forall c, In c (findClassesByAttribute attribute st)
             <-> In c (classData st) /\ In attribute (_attributes c)) /\
  sublist (findClassesByAttribute attribute st) (classData st) /\
  (forall before after,
      classData st = before ++ after ->
      findClassesByAttribute attribute st
      = findClassesByAttribute attribute (with_classData before st)
        ++ findClassesByAttribute attribute (with_classData after st)).
Proof.
  unfold findClassesByAttribute.
  rewrite collectByAttribute_filter. cbn [app]. split; [|split].
  - intros c. rewrite filter_In. now rewrite existsb_eqb_In.
  - apply filter_sublist.
  - intros before after ->. cbn [classData with_classData].
    rewrite !collectByAttribute_filter. cbn [app]. exact (List.filter_app _ before after).
Qed.

Lemma status_partition (l : list ClassObj) :
  Forall status_ok l ->
  Permutation l
    (List.filter (fun c => strictEqStr (Course.status c) "OPEN") l
     ++ List.filter (fun c => strictEqStr (Course.status c) "CLOSED") l).
Proof.
  induction 1 as [|c l Hc _ IH]; cbn [List.filter]; [constructor|].
  destruct Hc as [Hc | Hc].
  - assert (Ho : strictEqStr (Course.status c) "OPEN" = true)
      by (unfold Course.status; now rewrite Hc).
    assert (Hn : strictEqStr (Course.status c) "CLOSED" = false)
      by (unfold Course.status; now rewrite Hc).
    rewrite Ho, Hn. apply perm_skip, IH.
  - assert (Ho : strictEqStr (Course.status c) "OPEN" = false)
      by (unfold Course.status; now rewrite Hc).
    assert (Hn : strictEqStr (Course.status c) "CLOSED" = true)
      by (unfold Course.status; now rewrite Hc).
    rewrite Ho, Hn. apply Permutation_cons_app, IH.
Qed.

(** X14. On a collection whose statuses are the two tokens (which is
    every collection the scraper builds), the two status queries split
    it: every record is in exactly one of the two results, so their
    sizes add up to the size of the collection, and no record is in
    both. *)
Theorem status_queries_partition (st : State) :
  records_ok st ->
  Permutation (classData st)
    (findClassesByStatus "OPEN" st ++ findClassesByStatus "CLOSED" st) /\
  (length (findClassesByStatus "OPEN" st)
   + length (findClassesByStatus "CLOSED" st) = length (classData st))%nat /\
  (forall c, In c (findClassesByStatus "OPEN" st) ->
             ~ In c (findClassesByStatus "CLOSED" st)).
Proof.
  intros Hok. pose proof (status_partition (classData st) Hok) as Hp.
  unfold findClassesByStatus. split; [exact Hp|]. split.
  - apply Permutation_length in Hp. rewrite length_app in Hp. lia.
  - intros c [_ Ho]%filter_In [_ Hc]%filter_In.
    unfold strictEqStr in Ho, Hc. destruct (Course.status c); try discriminate.
    apply String.eqb_eq in Ho, Hc. subst. discriminate.
Qed.

Lemma status_queries_example :
  let open := mkClass (Int 10102) "BIOL 101" ["C100"] "Intro Biology" "Smith"
                (Some (Int 3)) "MWF 9-9:50" (Int 30) (Int 25) (Int 5)
                (VStr "OPEN") in
  let closed := mkClass (Int 10203) "CHEM 103" [""] "General Chemistry" "Jones"
                  None "TR 11-12:20" (Int 40) (Int 40) (Int 0)
                  (VStr "CLOSED") in
  let st := with_classData [closed; open; closed]
              (initial "abcdef@wm.edu" 1700000000000 ∅) in
  (length (findClassesByStatus "OPEN" st)
   + length (findClassesByStatus "CLOSED" st) = 3)%nat.
Proof.
  intros open closed st.
  refine (proj1 (proj2 (status_queries_partition st _))).
  constructor; [right; reflexivity|].
  constructor; [left; reflexivity|].
  constructor; [right; reflexivity|].
  constructor.
Defined.


Lemma find_app_last {A} (p : A -> bool) (l : list A) (x : A) :
  find p (l ++ [x])
  = match find p l with
    | Some y => Some y
    | None => if p x then Some x else None
    end.
Proof.
  induction l as [|y l IH]; simpl; [reflexivity|].
  destruct (p y); [reflexivity | exact IH].
Qed.

(** X16. Looking up a record that has just been added.  After a row
    has been stored, a lookup by the CRN of the new record succeeds; it
    returns the new record unless an older record has the same CRN, in
    which case the older one is returned and the new one cannot be
    reached by CRN.  A lookup that succeeded before the row was stored
    returns the same record afterwards. *)
Theorem new_record_is_found_unless_shadowed (row : list string) (st st' : State) :
  createAndSaveClass row st = (Done tt, st') ->
  exists cls,
    classData st' = classData st ++ [cls] /\
    findClassByCrn (crn cls) st'
    = Some (match findClassByCrn (crn cls) st with
            | Some older => older
            | None => cls
            end) /\
    (forall k found, findClassByCrn k st = Some found ->
                     findClassByCrn k st' = Some found).
Proof.
  intros H. destruct (createAndSaveClass_pushes row) as [[cls Hc] | [e He]].
  - rewrite Hc in H. injection H as <-. exists cls.
    unfold findClassByCrn. cbn [classData with_classData].
    split; [reflexivity|]. split.
    + rewrite find_app_last, String.eqb_refl.
      now destruct (find _ (classData st)).
    + intros k found Hk. now rewrite find_app_last, Hk.
  - rewrite He in H. discriminate H.
Qed.

Lemma new_record_example :
  let row := ["10102"; "BIOL 101"; "C100"; "Intro Biology"; "Smith"; "3";
              "MWF 9-9:50"; "30"; "25"; "5*"; "OPEN"] in
  let cls := mkClass (Int 10102) "BIOL 101" ["C100"] "Intro Biology" "Smith"
               (Some (Int 3)) "MWF 9-9:50" (Int 30) (Int 25) (Int 5)
               (VStr "OPEN") in
  let st := with_classData [cls] (initial "abcdef@wm.edu" 1700000000000 ∅) in
  let st' := with_classData [cls; cls] st in
  exists new,
    classData st' = classData st ++ [new] /\
    findClassByCrn (crn new) st'
    = Some (match findClassByCrn (crn new) st with
            | Some older => older
            | None => new
            end).
Proof.
  intros row cls st st'.
  assert (E : createAndSaveClass row st = (Done tt, st'))
    by (vm_compute; reflexivity).
  destruct (new_record_is_found_unless_shadowed row st st' E)
    as (new & H1 & H2 & _).
  exists new. split; [exact H1 | exact H2].
Defined.

Lemma allChars_both_nil (p q : ascii -> bool) (s : string) :
  (forall c, p c = true -> q c = false) ->
  allChars p s = true -> allChars q s = true -> s = EmptyString.
Proof.
  intros Hpq. destruct s as [|c s]; [reflexivity|]. simpl.
  intros [Hp _]%andb_true_iff [Hq _]%andb_true_iff.
  rewrite (Hpq c Hp) in Hq. discriminate.
Qed.

Lemma not_numeral_whiteSpace (c : ascii) :
  isWhiteSpace c = true -> isNumeralChar c = false.
Proof.
  intros H. destruct (isNumeralChar c) eqn:E; [|reflexivity].
  destruct (numeralChar_plain c E) as (_ & Hw & _). congruence.
Qed.

Lemma not_numeral_trailer (c : ascii) :
  isTrailer c = true -> isNumeralChar c = false.
Proof.
  intros H. destruct (isNumeralChar c) eqn:E; [|reflexivity].
  destruct (numeralChar_plain c E) as (Hl & Hw & Hs).
  unfold isTrailer in H. rewrite Hl, Hw, Hs in H. discriminate.
Qed.

Lemma allChars_impl (p q : ascii -> bool) (s : string) :
  (forall c, p c = true -> q c = true) ->
  allChars p s = true -> allChars q s = true.
Proof.
  intros Hpq. induction s as [|c s IH]; [reflexivity|]. simpl.
  intros [Hp Hs]%andb_true_iff. now rewrite (Hpq c Hp), IH.
Qed.

(** X17. The CRN has to be asked for in its canonical decimal form.
    The getter prints the stored number, so the text of a cell that
    reads as a number but is not its plain numeral (white space around
    it, an asterisk after it) finds nothing, in any collection, even
    though the record was built from that very text. *)
Theorem findClassByCrn_needs_the_plain_numeral (cell : string) (z : Z) (st : State) :
  reads cell z ->
  cell <> Z_toString z ->
  findClassByCrn cell st = None.
Proof.
  intros (lead & trail & Hl & Ht & ->) Hne.
  destruct (findClassByCrn _ st) as [c|] eqn:E; [exfalso|reflexivity].
  apply find_some in E as [_ E]. apply String.eqb_eq in E.
  unfold crn in E.
  set (q := fun c => isWhiteSpace c || isNumeralChar c || isTrailer c).
  assert (Hq : allChars q (lead ++ Z_toString z ++ trail) = true).
  { rewrite !allChars_app.
    rewrite (allChars_impl isWhiteSpace q lead), (allChars_impl isTrailer q trail),
      (allChars_impl isNumeralChar q (Z_toString z));
      auto using Z_toString_numeral; subst q; cbn beta; intros x ->;
      rewrite ?orb_true_r; reflexivity. }
  destruct (_crn c) as [|z'].
  - cbn [Num_toString] in E. rewrite <- E in Hq. discriminate Hq.
  - cbn [Num_toString] in E.
    pose proof (Z_toString_numeral z') as Hn. rewrite E in Hn.
    rewrite !allChars_app in Hn.
    apply andb_true_iff in Hn as [Hn1 Hn2]. apply andb_true_iff in Hn2 as [_ Hn2].
    pose proof (allChars_both_nil _ _ lead not_numeral_whiteSpace Hl Hn1).
    pose proof (allChars_both_nil _ _ trail not_numeral_trailer Ht Hn2).
    subst lead trail. apply Hne. now rewrite append_nil, append_nil_r.
Qed.

Lemma findClassByCrn_padded_example :
  let st := snd (createAndSaveClass
                   [" 10102"; "BIOL 101"; "C100"; "Intro Biology"; "Smith"; "3";
                    "MWF 9-9:50"; "30"; "25"; "5*"; "OPEN"]
                   (initial "abcdef@wm.edu" 1700000000000 ∅)) in
  findClassByCrn " 10102" st = None.
Proof.
  intros st.
  apply (findClassByCrn_needs_the_plain_numeral " 10102" 10102 st).
  - exact (reads_example " " "10102" "" 10102 eq_refl eq_refl eq_refl).
  - discriminate.
Defined.

(* ===================================================================== *)
(** ** Further properties: the user agent and the constructor            *)
(* ===================================================================== *)

Section Matching.

Lemma append_assoc (a b c : string) : ((a ++ b) ++ c = a ++ (b ++ c))%string.
Proof.
  induction a as [|x a IH]; [now rewrite !append_nil|].
  now rewrite !append_cons, IH.
Qed.

Lemma append_eq_nil (a b : string) :
  (a ++ b)%string = EmptyString -> a = EmptyString /\ b = EmptyString.
Proof.
  destruct a; [rewrite append_nil; auto|]. rewrite append_cons. discriminate.
Qed.

Lemma append_eq_cons (a b : string) (c : ascii) (s : string) :
  (a ++ b)%string = String c s ->
  (a = EmptyString /\ b = String c s) \/
  (exists a', a = String c a' /\ s = (a' ++ b)%string).
Proof.
  destruct a as [|x a].
  - rewrite append_nil. auto.
  - rewrite append_cons. intros [= -> <-]. right. eauto.
Qed.

Lemma matches_cat_inv (r1 r2 : RegExp) (s : string) :
  matches (RCat r1 r2) s ->
  exists s1 s2, s = (s1 ++ s2)%string /\ matches r1 s1 /\ matches r2 s2.
Proof. intros H. inversion H; subst. eauto. Qed.

Lemma matches_alt_inv (r1 r2 : RegExp) (s : string) :
  matches (RAlt r1 r2) s -> matches r1 s \/ matches r2 s.
Proof. intros H. inversion H; subst; auto. Qed.

Lemma matches_char (p : ascii -> bool) (s : string) :
  matches (RChar p) s -> exists c, s = String c EmptyString /\ p c = true.
Proof. intros H. inversion H; subst. eauto. Qed.

Lemma nullable_matches (r : RegExp) :
  nullable r = true <-> matches r EmptyString.
Proof.
  induction r as [| |p|r1 IH1 r2 IH2|r1 IH1 r2 IH2|r IH]; simpl.
  - split; [discriminate | intros H; inversion H].
  - split; [constructor | reflexivity].
  - split; [discriminate | intros H; inversion H].
  - rewrite andb_true_iff, IH1, IH2. split.
    + intros [H1 H2]. exact (m_cat _ _ _ _ H1 H2).
    + intros (s1 & s2 & E & H1 & H2)%matches_cat_inv.
      symmetry in E. apply append_eq_nil in E as [-> ->]. auto.
  - rewrite orb_true_iff, IH1, IH2. split.
    + intros [H|H]; [now apply m_alt_l | now apply m_alt_r].
    + apply matches_alt_inv.
  - split; [constructor | reflexivity].
Qed.

(** A non-empty match of a star begins with a non-empty match of its
    body. *)
Lemma star_cons (r : RegExp) (s : string) :
  matches (RStar r) s ->
  forall c t, s = String c t ->
  exists t1 t2, t = (t1 ++ t2)%string /\
                matches r (String c t1) /\ matches (RStar r) t2.
Proof.
  intros H. remember (RStar r) as r' eqn:Er.
  induction H as [| | | | | |r0 s1 s2 H1 _ H2 IH2]; try discriminate.
  injection Er as ->. intros c t E.
  apply append_eq_cons in E as [[-> ->] | (a' & -> & ->)].
  - now apply IH2.
  - exists a', s2. auto.
Qed.

Lemma deriv_matches (r : RegExp) (c : ascii) (s : string) :
  matches (deriv c r) s <-> matches r (String c s).
Proof.
  revert s. induction r as [| |p|r1 IH1 r2 IH2|r1 IH1 r2 IH2|r IH]; intros s; simpl.
  - split; intros H; inversion H.
  - split; intros H; inversion H.
  - destruct (p c) eqn:E; split; intros H.
    + inversion H; subst. now constructor.
    + apply matches_char in H as (x & [= -> ->] & _). constructor.
    + inversion H.
    + apply matches_char in H as (x & [= -> ->] & Hx). congruence.
  - assert (Hcat : matches (RCat (deriv c r1) r2) s
                   <-> exists a b, s = (a ++ b)%string
                                   /\ matches r1 (String c a) /\ matches r2 b).
    { split.
      - intros (s1 & s2 & -> & H1 & H2)%matches_cat_inv.
        exists s1, s2. rewrite <- IH1. auto.
      - intros (a & b & -> & H1 & H2). apply m_cat; [now apply IH1 | exact H2]. }
    assert (Hmain : matches (RCat r1 r2) (String c s)
                    <-> (exists a b, s = (a ++ b)%string
                                     /\ matches r1 (String c a) /\ matches r2 b)
                        \/ (matches r1 EmptyString /\ matches r2 (String c s))).
    { split.
      - intros (s1 & s2 & E & H1 & H2)%matches_cat_inv. symmetry in E.
        apply append_eq_cons in E as [[-> ->] | (a' & -> & ->)]; [auto|].
        left. eauto.
      - intros [(a & b & -> & H1 & H2) | [H1 H2]].
        + rewrite <- append_cons. now apply m_cat.
        + rewrite <- (append_nil (String c s)). now apply m_cat. }
    rewrite Hmain. destruct (nullable r1) eqn:En.
    + split.
      * intros [H|H]%matches_alt_inv.
        -- left. now apply Hcat.
        -- right. split; [now apply nullable_matches | now apply IH2].
      * intros [H | [_ H]]; [apply m_alt_l; now apply Hcat|].
        apply m_alt_r. now apply IH2.
    + rewrite Hcat. split; [auto|]. intros [H | [H _]]; [exact H|].
      apply nullable_matches in H. congruence.
  - split.
    + intros [H|H]%matches_alt_inv;
        [apply m_alt_l; now apply IH1 | apply m_alt_r; now apply IH2].
    + intros [H|H]%matches_alt_inv;
        [apply m_alt_l; now apply IH1 | apply m_alt_r; now apply IH2].
  - split.
    + intros (s1 & s2 & -> & H1 & H2)%matches_cat_inv.
      rewrite <- append_cons. apply m_star_cons; [now apply IH | exact H2].
    + intros H.
      destruct (star_cons r _ H c s eq_refl) as (t1 & t2 & -> & H1 & H2).
      apply m_cat; [now apply IH | exact H2].
Qed.

(** The matcher decides membership in the language. *)
Lemma test_matches (r : RegExp) (s : string) :
  test r s = true <-> matches r s.
Proof.
  revert r. induction s as [|c s IH]; intros r; simpl.
  - apply nullable_matches.
  - rewrite IH. apply deriv_matches.
Qed.

Lemma matches_lit (l s : string) : matches (RLit l) s <-> s = l.
Proof.
  revert s. induction l as [|c l IH]; intros s; simpl.
  - split; [intros H; now inversion H | intros ->; constructor].
  - split.
    + intros (s1 & s2 & -> & H1 & H2)%matches_cat_inv.
      apply matches_char in H1 as (x & -> & E). apply Ascii.eqb_eq in E.
      apply IH in H2. now subst.
    + intros ->. rewrite <- (append_nil l), <- append_cons.
      apply m_cat; [|now apply IH].
      constructor. apply Ascii.eqb_refl.
Qed.

Lemma matches_star_class (p : ascii -> bool) (s : string) :
  matches (RStar (RChar p)) s <-> allChars p s = true.
Proof.
  split.
  - intros H. remember (RStar (RChar p)) as r eqn:Er.
    induction H as [| | | | | |r0 s1 s2 H1 _ H2 IH2]; try discriminate;
      [reflexivity|].
    injection Er as ->. apply matches_char in H1 as (c & -> & E).
    rewrite allChars_app. simpl. now rewrite E, IH2.
  - induction s as [|c s IH]; simpl; [constructor|].
    intros [Hc Hs]%andb_true_iff.
    rewrite <- (append_nil s), <- append_cons.
    apply m_star_cons; [now constructor | now apply IH].
Qed.

Lemma matches_plus_class (p : ascii -> bool) (s : string) :
  matches (RPlus (RChar p)) s <-> s <> EmptyString /\ allChars p s = true.
Proof.
  unfold RPlus. split.
  - intros (s1 & s2 & -> & H1 & H2)%matches_cat_inv.
    apply matches_char in H1 as (c & -> & E).
    apply matches_star_class in H2. rewrite append_cons, append_nil.
    split; [discriminate|]. simpl. now rewrite E, H2.
  - intros [Hne H]. destruct s as [|c s]; [contradiction|].
    simpl in H. apply andb_true_iff in H as [Hc Hs].
    rewrite <- (append_nil s), <- append_cons.
    apply m_cat; [now constructor | now apply matches_star_class].
Qed.

End Matching.

(** The pattern read as a sequence: the local part, [@], a host prefix
    that may be empty, the domain, [.edu]. *)
Lemma userAgentPattern_cat :
  exists host,
    userAgentPattern
    = RCat (RPlus (RChar (fun c => isAlnum c || Ascii.eqb c "_" || Ascii.eqb c "."
                                   || Ascii.eqb c "+" || Ascii.eqb c "-")))
        (RCat (RChar (Ascii.eqb "@"))
           (RCat host
              (RCat (RAlt (RLit "wm")
                       (RCat (RLit "email") (RCat (RChar anyChar) (RLit "wm"))))
                    (RLit ".edu")))) /\
    matches host EmptyString.
Proof.
  eexists. split; [reflexivity|]. apply m_alt_l. constructor.
Qed.

(** X18. What the user-agent check guarantees.  An accepted user
    agent consists of a non-empty local part made of letters, digits
    and [_ . + -], then [@], then a host that ends in [wm.edu].  So no
    address outside the [wm.edu] names is accepted, and none with an
    empty local part. *)
Theorem accepted_userAgent_shape (userAgent : string) (st st' : State) :
  set_userAgent userAgent st = Ok st' ->
  exists localPart host,
    userAgent = (localPart ++ "@" ++ host ++ "wm.edu")%string /\
    localPart <> EmptyString /\
    allChars (fun c => isAlnum c || Ascii.eqb c "_" || Ascii.eqb c "."
                       || Ascii.eqb c "+" || Ascii.eqb c "-") localPart = true /\
    _userAgent st' = userAgent.
Proof.
  unfold set_userAgent.
  destruct (test userAgentPattern userAgent) eqn:E; [|discriminate].
  intros [= <-]. apply test_matches in E.
  destruct userAgentPattern_cat as (hostPattern & Hp & _). rewrite Hp in E.
  apply matches_cat_inv in E as (localPart & s1 & -> & Hl & H1).
  apply matches_cat_inv in H1 as (at_ & s2 & -> & Ha & H2).
  apply matches_cat_inv in H2 as (sub & s3 & -> & Hs & H3).
  apply matches_cat_inv in H3 as (dom & edu & -> & Hd & He).
  apply matches_plus_class in Hl as [Hne Hl].
  apply matches_char in Ha as (c & -> & Hc). apply Ascii.eqb_eq in Hc. subst c.
  apply matches_lit in He. subst edu.
  exists localPart.
  apply matches_alt_inv in Hd as [Hwm | Hem].
  - apply matches_lit in Hwm. subst dom. exists sub.
    repeat split; auto.
  - apply matches_cat_inv in Hem as (e & s4 & -> & He & H4).
    apply matches_cat_inv in H4 as (d & w & -> & Hdot & Hw).
    apply matches_lit in He, Hw. subst e w.
    apply matches_char in Hdot as (x & -> & _).
    exists (sub ++ "email" ++ String x "")%string.
    repeat split; auto.
    now rewrite !append_assoc.
Qed.

Lemma accepted_userAgent_example :
  let st := initial "" 1700000000000 ∅ in
  exists localPart host,
    "j.doe+scraper@cs.wm.edu"%string = (localPart ++ "@" ++ host ++ "wm.edu")%string /\
    localPart <> EmptyString.
Proof.
  intros st.
  destruct (accepted_userAgent_shape "j.doe+scraper@cs.wm.edu" st
              (mkState "j.doe+scraper@cs.wm.edu" (_rateLimit st) (courselistData st)
                 (classData st) (clock st) (requests st) (files st)) eq_refl)
    as (localPart & host & H1 & H2 & _).
  exists localPart, host. split; assumption.
Defined.

(** X19. What the user-agent check lets through.  With any non-empty
    local part of allowed characters, the addresses at [wm.edu] and at
    [email.wm.edu] are accepted.  So is any address in which the dot
    of [email.wm] is replaced by another character (other than a line
    break): the pattern leaves that dot unescaped. *)
Theorem userAgent_check_accepts (localPart : string) (x : ascii) (st : State) :
  localPart <> EmptyString ->
  allChars (fun c => isAlnum c || Ascii.eqb c "_" || Ascii.eqb c "."
                     || Ascii.eqb c "+" || Ascii.eqb c "-") localPart = true ->
  anyChar x = true ->
  (exists st1, set_userAgent (localPart ++ "@wm.edu") st = Ok st1) /\
  (exists st2, set_userAgent (localPart ++ "@email.wm.edu") st = Ok st2) /\
  (exists st3, set_userAgent (localPart ++ "@email" ++ String x "wm.edu") st
               = Ok st3).
Proof.
  intros Hne Hl Hx.
  assert (Hdom : forall dom,
            matches (RAlt (RLit "wm")
                       (RCat (RLit "email") (RCat (RChar anyChar) (RLit "wm")))) dom ->
            exists st', set_userAgent (localPart ++ "@" ++ dom ++ ".edu") st = Ok st').
  { intros dom Hd. unfold set_userAgent.
    assert (E : test userAgentPattern (localPart ++ "@" ++ dom ++ ".edu") = true).
    { apply test_matches.
      destruct userAgentPattern_cat as (hostPattern & -> & Hhost).
      apply m_cat; [now apply matches_plus_class|].
      apply (m_cat _ _ "@"); [constructor; reflexivity|].
      rewrite <- (append_nil (dom ++ ".edu")).
      apply m_cat; [exact Hhost|].
      apply m_cat; [exact Hd | now apply matches_lit]. }
    rewrite E. eauto. }
  split; [|split].
  - apply (Hdom "wm"%string). apply m_alt_l. now apply matches_lit.
  - apply (Hdom "email.wm"%string). apply m_alt_r.
    apply (m_cat _ _ "email" ".wm"); [now apply matches_lit|].
    apply (m_cat _ _ "." "wm"); [now constructor | now apply matches_lit].
  - apply (Hdom ("email" ++ String x "wm")%string). apply m_alt_r.
    apply (m_cat _ _ "email" (String x "wm")); [now apply matches_lit|].
    apply (m_cat _ _ (String x "") "wm"); [now constructor | now apply matches_lit].
Qed.

Lemma userAgent_check_example :
  let st := initial "" 1700000000000 ∅ in
  exists st3, set_userAgent "abcdef@emailXwm.edu" st = Ok st3.
Proof.
  intros st.
  refine (proj2 (proj2 (userAgent_check_accepts "abcdef" "X" st _ eq_refl eq_refl))).
  discriminate.
Defined.

(** X20. The constructor.  It fails, with a [ScraperError], exactly
    when the user agent fails the check.  Otherwise the new scraper has
    no terms, no subjects, no records and a last-request stamp of 0, and
    its interval is the given rate limit, except that an omitted rate
    limit and a rate limit of 0 both leave the default of 500 ms; a
    negative rate limit is taken as given. *)
Theorem new_Scraper_outcome
    (userAgent : string) (limit : option Z) (now : Z) (fs : gmap string File) :
  new_Scraper userAgent limit now fs
  = if test userAgentPattern userAgent
    then Ok (mkState userAgent
               (mkRateLimit (match limit with
                             | Some ms => if ms =? 0 then 500 else ms
                             | None => 500
                             end) 0)
               (mkData VNull None None) [] now [] fs)
    else Throw (ScraperError "Invalid user agent. Must be a W&M email address.").
Proof.
  unfold new_Scraper, set_userAgent.
  destruct (test userAgentPattern userAgent); [|reflexivity].
  cbn [rbind]. destruct limit as [ms|]; [|reflexivity].
  cbn [truthy]. destruct (ms =? 0); reflexivity.
Qed.

(* ===================================================================== *)
(** ** Further properties: comma-separated files                         *)
(* ===================================================================== *)

Section Lines.

Variable JSON_text : JsVal -> string.

Lemma split_cons (x : ascii) (s : string) :
  exists h t, split x s = h :: t.
Proof.
  induction s as [|c s (h & t & IH)]; simpl; [eauto|].
  destruct (Ascii.eqb c x); [eauto|]. rewrite IH. eauto.
Qed.

Lemma split_length (x : ascii) (s : string) :
  length (split x s) = S (occurrences x s).
Proof.
  induction s as [|c s IH]; simpl; [reflexivity|].
  destruct (Ascii.eqb c x); simpl; [now rewrite IH|].
  destruct (split_cons x s) as (h & t & E). rewrite E in *. simpl in *. exact IH.
Qed.

Lemma split_trailing (x : ascii) (s : string) :
  split x (s ++ String x EmptyString) = split x s ++ [EmptyString].
Proof.
  induction s as [|c s IH].
  - rewrite append_nil. simpl. now rewrite Ascii.eqb_refl.
  - rewrite append_cons. simpl. rewrite IH.
    destruct (Ascii.eqb c x); [reflexivity|].
    destruct (split_cons x s) as (h & t & E). rewrite E. reflexivity.
Qed.

Lemma loadCsvLine_pushes : pushes loadCsvLine.
Proof.
  intros line. unfold loadCsvLine. cbv zeta. unfold bind, liftR.
  destruct (new_Class _ _ _ _ _ _ _ _ _ _ _) as [cls|e].
  - left. exists cls. reflexivity.
  - right. exists e. reflexivity.
Qed.

Lemma loadCsvLine_blank (st : State) :
  loadCsvLine EmptyString st
  = (Done tt, with_classData (classData st ++ [blankRecord]) st).
Proof.
  unfold loadCsvLine. cbv zeta.
  set (r := new_Class _ _ _ _ _ _ _ _ _ _ _).
  assert (Hr : r = Ok blankRecord) by (vm_compute; reflexivity).
  unfold bind. now rewrite Hr.
Qed.

Lemma forEach_app {A} (body : A -> M unit) (l1 l2 : list A) (st : State) :
  forEach (l1 ++ l2) body st = (forEach l1 body ;; forEach l2 body) st.
Proof.
  revert st. induction l1 as [|a l1 IH]; intros st; simpl; [reflexivity|].
  unfold bind. destruct (body a st) as [[[]|e|] st1]; [|reflexivity..].
  rewrite IH. reflexivity.
Qed.

Lemma forEach_pushes_done {A} (body : A -> M unit) (l : list A) :
  pushes body ->
  forall st st',
    forEach l body st = (Done tt, st') ->
    exists added,
      length added = length l /\
      st' = with_classData (classData st ++ added) st.
Proof.
  intros Hb. induction l as [|a l IH]; intros st st'; simpl.
  - intros [= <-]. exists []. now rewrite with_classData_nil.
  - destruct (Hb a) as [[cls Ha] | [e Ha]].
    + rewrite (bind_done _ _ _ _ _ (Ha st)). intros H.
      destruct (IH _ _ H) as (added & Hlen & ->).
      exists (cls :: added). split; [simpl; now rewrite Hlen|].
      exact (with_classData_app st [cls] added).
    + rewrite (bind_raise _ _ _ _ _ (Ha st)). discriminate.
Qed.

Lemma loadFromCsv_lines (filepath content : string) (st : State) :
  files st !! filepath = Some (Text content) ->
  loadFromCsv JSON_text filepath st
  = forEach (tl (split (ascii_of_nat 10) content)) loadCsvLine
      (with_classData [] st).
Proof.
  intros Hfile. unfold loadFromCsv, readText.
  unfold bind at 1. unfold bind at 1, gets. rewrite Hfile. reflexivity.
Qed.

(** X21. Loading a comma-separated file that is read to its end
    gives one record for every line feed in the file, whatever stood in
    the collection before: the first line is skipped as the header, and
    every later line, an empty one included, becomes one record. *)
Theorem loadFromCsv_one_record_per_line_feed
    (filepath content : string) (st : State) :
  files st !! filepath = Some (Text content) ->
  fst (loadFromCsv JSON_text filepath st) = Done tt ->
  length (classData (snd (loadFromCsv JSON_text filepath st)))
  = occurrences (ascii_of_nat 10) content.
Proof.
  intros Hfile. rewrite (loadFromCsv_lines filepath content st Hfile).
  destruct (forEach _ _ _) as [out st'] eqn:E. cbn [fst snd]. intros ->.
  destruct (forEach_pushes_done loadCsvLine _ loadCsvLine_pushes _ _ E)
    as (added & Hlen & ->).
  cbn [classData with_classData app]. rewrite Hlen.
  pose proof (split_length (ascii_of_nat 10) content) as Hs.
  destruct (split _ content); simpl in *; lia.
Qed.

(** X22. A line feed at the end of a comma-separated file adds a
    record.  Of two files that differ only in a final line feed, the one
    with it loads as the records of the other followed by one blank
    record: no CRN, no enrollment numbers and no credits (all [NaN]),
    empty strings, no attributes, status CLOSED. *)
Theorem loadFromCsv_final_line_feed_adds_blank_record
    (plain ended content : string) (st : State) :
  files st !! plain = Some (Text content) ->
  files st !! ended = Some (Text (content ++ LF)) ->
  fst (loadFromCsv JSON_text plain st) = Done tt ->
  loadFromCsv JSON_text ended st
  = (Done tt,
     with_classData
       (classData (snd (loadFromCsv JSON_text plain st)) ++ [blankRecord]) st).
Proof.
  intros Hplain Hended.
  rewrite (loadFromCsv_lines plain content st Hplain).
  rewrite (loadFromCsv_lines ended _ st Hended).
  unfold LF. rewrite split_trailing.
  destruct (split_cons (ascii_of_nat 10) content) as (h & t & ->).
  cbn [tl app]. rewrite forEach_app.
  destruct (forEach t loadCsvLine (with_classData [] st)) as [out st'] eqn:E.
  cbn [fst snd]. intros ->.
  rewrite (bind_done _ _ _ _ _ E). cbn [forEach].
  rewrite (bind_done _ _ _ _ _ (loadCsvLine_blank st')). cbn [ret].
  destruct (forEach_pushes_done loadCsvLine _ loadCsvLine_pushes _ _ E)
    as (added & _ & ->).
  reflexivity.
Qed.

End Lines.

Lemma loadFromCsv_line_feeds_example :
  let header := "_crn,_courseID,_attributes,_title,_instructor,_credits,_times,_projectedEnrollment,_currentEnrollment,_seatsAvailable,_status"%string in
  let line := "10102,BIOL 101,C100,Intro Biology,Smith,3,MWF 9-9:50,30,25,5,OPEN"%string in
  let st := initial "abcdef@wm.edu" 1700000000000
              {[ "courses.csv" := Text (header ++ LF ++ line ++ LF) ]} in
  length (classData (snd (loadFromCsv ToString "courses.csv" st))) = 2%nat.
Proof.
  intros header line st.
  apply (loadFromCsv_one_record_per_line_feed ToString "courses.csv"
           (header ++ LF ++ line ++ LF) st).
  - reflexivity.
  - vm_compute. reflexivity.
Defined.

Lemma loadFromCsv_final_line_feed_example :
  let header := "_crn,_courseID,_attributes,_title,_instructor,_credits,_times,_projectedEnrollment,_currentEnrollment,_seatsAvailable,_status"%string in
  let line := "10102,BIOL 101,C100,Intro Biology,Smith,3,MWF 9-9:50,30,25,5,OPEN"%string in
  let st := initial "abcdef@wm.edu" 1700000000000
              {[ "a.csv" := Text (header ++ LF ++ line);
                 "b.csv" := Text ((header ++ LF ++ line) ++ LF) ]} in
  loadFromCsv ToString "b.csv" st
  = (Done tt,
     with_classData
       (classData (snd (loadFromCsv ToString "a.csv" st)) ++ [blankRecord]) st).
Proof.
  intros header line st.
  apply (loadFromCsv_final_line_feed_adds_blank_record ToString "a.csv" "b.csv"
           (header ++ LF ++ line) st).
  - vm_compute. reflexivity.
  - vm_compute. reflexivity.
  - vm_compute. reflexivity.
Defined.

(* ===================================================================== *)
(** ** Further properties: pages and recursion                           *)
(* ===================================================================== *)

Section Pages.

Variable http : string -> option Page.

Lemma row_accepted (row : list string) :
  rowOK row = true ->
  exists cls, forall st,
    createAndSaveClass row st
    = (Done tt, with_classData (classData st ++ [cls]) st).
Proof.
  unfold rowOK, createAndSaveClass.
  do 11 (destruct row as [|? row]; [discriminate|]).
  destruct row; [|discriminate].
  cbn [length nth Nat.eqb andb]. intros H. rewrite new_Class_cells.
  rewrite status_value_token
    by (apply orb_true_iff in H as [H|H]; apply String.eqb_eq in H; auto).
  cbn [rbind liftR]. eexists. intros st. reflexivity.
Qed.

Lemma row_refused (row : list string) :
  rowOK row = false ->
  exists e, forall st, createAndSaveClass row st = (Raise e, st).
Proof.
  unfold rowOK, createAndSaveClass.
  do 11 (destruct row as [|? row]; [eexists; reflexivity|]).
  destruct row; [|eexists; reflexivity].
  cbn [length nth Nat.eqb andb]. intros H. rewrite new_Class_cells.
  apply orb_false_iff in H as [H1 H2]. apply String.eqb_neq in H1, H2.
  rewrite (status_value_other _ H1 H2). eexists. reflexivity.
Qed.

Lemma forEach_accepted (rows : list (list string)) :
  forallb rowOK rows = true ->
  exists added,
    length added = length rows /\
    forall st, forEach rows createAndSaveClass st
               = (Done tt, with_classData (classData st ++ added) st).
Proof.
  induction rows as [|row rows IH]; simpl.
  - intros _. exists []. split; [reflexivity|]. intros st.
    now rewrite with_classData_nil.
  - intros [Hrow Hrows]%andb_true_iff.
    destruct (row_accepted row Hrow) as (cls & Hcls).
    destruct (IH Hrows) as (added & Hlen & Hfor).
    exists (cls :: added). split; [simpl; now rewrite Hlen|]. intros st.
    rewrite (bind_done _ _ _ _ _ (Hcls st)), Hfor.
    f_equal. exact (with_classData_app st [cls] added).
Qed.

(** The rows of the page of a known subject are stored from the state
    the wait and the request leave. *)
Lemma single_subject_table (n : nat) (s : string) (t : JsVal) (st : State)
    (subs : list string) (page : Page) (table : list (list string)) :
  subjects (courselistData st) = Some subs -> In s subs -> s <> EmptyString ->
  http (searchUrl (effectiveTerm t st) (VStr s)) = Some page ->
  tbody page = Some table ->
  exists st1,
    classData st1 = classData st /\
    getCourseData http (S n) (VStr s) t st = forEach table createAndSaveClass st1.
Proof.
  intros Hsubs Hin Hne Hpage Htable. unfold effectiveTerm in Hpage.
  rewrite (getCourseData_single http n s t st subs Hsubs Hin Hne).
  pose proof (rateLimit_run st) as Hrl. cbv zeta in Hrl.
  rewrite (bind_done _ _ _ _ _ Hrl).
  unfold bind at 1, gets at 1.
  cbn [courselistData with_rateLimit with_clock].
  unfold bind at 1, fetch, bind at 1, modify. rewrite Hpage. cbn [ret].
  unfold bind at 1. rewrite Htable. cbn [children ret].
  eexists. split; [|reflexivity]. reflexivity.
Qed.

(** X23. A page is stored row by row, without looking ahead and
    without rolling back.  When the page of a known subject has a row
    that is refused (not eleven cells, or a status cell that is neither
    OPEN nor CLOSED), the call throws at the first such row: the rows
    before it have been stored, one record each, and stay; the rows
    after it are never looked at. *)
Theorem page_stops_at_first_refused_row
    (n : nat) (s : string) (t : JsVal) (st : State) (subs : list string)
    (page : Page) (good rest : list (list string)) (bad : list string) :
  subjects (courselistData st) = Some subs -> In s subs -> s <> EmptyString ->
  http (searchUrl (effectiveTerm t st) (VStr s)) = Some page ->
  tbody page = Some (good ++ bad :: rest) ->
  forallb rowOK good = true ->
  rowOK bad = false ->
  let r := getCourseData http (S n) (VStr s) t st in
  exists e added,
    fst r = Raise e /\
    classData (snd r) = classData st ++ added /\
    length added = length good.
Proof.
  intros Hsubs Hin Hne Hpage Htable Hgood Hbad r. subst r.
  destruct (single_subject_table n s t st subs page _ Hsubs Hin Hne Hpage Htable)
    as (st1 & Hc & ->).
  destruct (forEach_accepted good Hgood) as (added & Hlen & Hfor).
  destruct (row_refused bad Hbad) as (e & He).
  exists e, added.
  assert (E : forEach (good ++ bad :: rest) createAndSaveClass st1
              = (Raise e, with_classData (classData st1 ++ added) st1)).
  { apply (forEach_app_fail createAndSaveClass good bad rest e st1 _ _ (Hfor st1)).
    apply He. }
  rewrite E. cbn [fst snd classData with_classData]. now rewrite Hc.
Qed.


End Pages.

Lemma page_stops_example :
  let good := ["10102"; "BIOL 101"; "C100"; "Intro Biology"; "Smith"; "3";
               "MWF 9-9:50"; "30"; "25"; "5*"; "OPEN"] in
  let bad := ["10103"; "BIOL 102"; "C100"; "Intro Biology II"; "Smith"; "3";
              "MWF 10-10:50"; "30"; "30"; "0"; "FULL"] in
  let http := fun _ : string => Some (mkPage None None (Some [good; bad; good])) in
  let st := with_courselistData (mkData (VStr "202410") None (Some ["BIOL"]))
              (initial "abcdef@wm.edu" 1700000000000 ∅) in
  let r := getCourseData http 1 (VStr "BIOL") VUndef st in
  exists e added,
    fst r = Raise e /\
    classData (snd r) = classData st ++ added /\
    length added = 1%nat.
Proof.
  intros good bad http st.
  apply (page_stops_at_first_refused_row http 0 "BIOL" VUndef st ["BIOL"]
           (mkPage None None (Some [good; bad; good])) [good] [good] bad).
  - reflexivity.
  - now left.
  - discriminate.
  - reflexivity.
  - reflexivity.
  - reflexivity.
  - reflexivity.
Defined.


(* ===================================================================== *)
(** ** Further properties: tidy collections                              *)
(* ===================================================================== *)

(** Methods that store only what the constructor returned step along
    every relation that lets such a record be appended. *)
Section Built.

Variable R : State -> State -> Prop.
Hypothesis R_refl : forall st, R st st.
Hypothesis R_trans : forall a b c, R a b -> R b c -> R a c.
Hypothesis R_requests : forall st l, R st (with_requests (requests st ++ l) st).
Hypothesis R_clock : forall st t, R st (with_clock t st).
Hypothesis R_rate : forall st r, R st (with_rateLimit r st).
Hypothesis R_data : forall st d, R st (with_courselistData d st).
Hypothesis R_clear : forall st, R st (with_classData [] st).
Hypothesis R_files : forall st fs, R st (with_files fs st).
Hypothesis R_built :
  forall st a0 a1 a2 a3 a4 a5 a6 a7 a8 a9 a10 cls,
    new_Class a0 a1 a2 a3 a4 a5 a6 a7 a8 a9 a10 = Ok cls ->
    R st (with_classData (classData st ++ [cls]) st).

Lemma built_construct (a0 a1 a2 a3 a4 a5 a6 a7 a8 a9 a10 : JsVal) :
  steps R (bind (liftR (new_Class a0 a1 a2 a3 a4 a5 a6 a7 a8 a9 a10))
           (fun cls => modify (fun st => with_classData (classData st ++ [cls]) st))).
Proof using R_refl R_built.
  destruct (new_Class a0 a1 a2 a3 a4 a5 a6 a7 a8 a9 a10) as [c|e] eqn:E.
  - intros st. unfold bind; simpl. eapply R_built, E.
  - intros st. apply R_refl.
Qed.

Lemma built_createAndSaveClass (classInfo : list string) :
  steps R (createAndSaveClass classInfo).
Proof using R_refl R_built.
  unfold createAndSaveClass.
  do 11 (destruct classInfo as [|? classInfo]; [apply steps_raise, R_refl|]).
  destruct classInfo; [|apply steps_raise, R_refl].
  apply built_construct.
Qed.

Lemma built_loadEntry (entry : JsVal) : steps R (loadEntry entry).
Proof using R_refl R_trans R_built.
  unfold loadEntry.
  do 12 (apply (steps_bind R R_trans);
         [first [apply (steps_getProp R R_refl) | apply (steps_liftR R R_refl)]
         | intros ?]).
  apply built_construct.
Qed.

Lemma built_getCourseData (http : string -> option Page) (fuel : nat) :
  forall subjectCode term, steps R (getCourseData http fuel subjectCode term).
Proof using R_refl R_trans R_requests R_clock R_rate R_data R_built.
  induction fuel as [|fuel IH]; intros subjectCode term; simpl.
  - intros st; apply R_refl.
  - apply (steps_bind R R_trans); [apply (steps_gets R R_refl)|intros d].
    apply (steps_bind R R_trans).
    + apply steps_if; [|apply (steps_ret R R_refl)].
      apply (steps_bind R R_trans);
        [apply (steps_getTermsAndSubjects R R_refl R_trans R_requests R_clock
                  R_rate R_data)|intros _].
      apply (steps_bind R R_trans); [apply (steps_gets R R_refl)|intros d'].
      apply steps_if; [apply (steps_ret R R_refl) | apply (steps_raise R R_refl)].
    + intros _. apply steps_if.
      * apply (steps_bind R R_trans); [apply (steps_gets R R_refl)|intros subs].
        apply (steps_bind R R_trans); [apply (steps_children R R_refl)|intros known].
        apply (steps_bind R R_trans); [apply steps_if; [apply (steps_ret R R_refl) | apply (steps_raise R R_refl)]|intros _].
        apply (steps_bind R R_trans);
          [apply (steps_rateLimit R R_refl R_trans R_clock R_rate)|intros _].
        apply (steps_bind R R_trans); [apply (steps_gets R R_refl)|intros latest].
        apply (steps_bind R R_trans); [apply (steps_fetch R R_refl R_trans R_requests)|intros page].
        apply (steps_bind R R_trans); [apply (steps_children R R_refl)|intros table].
        apply (steps_forEach R R_refl R_trans), built_createAndSaveClass.
      * apply (steps_bind R R_trans); [apply (steps_gets R R_refl)|intros subs].
        apply (steps_bind R R_trans); [apply (steps_children R R_refl)|intros all].
        apply (steps_forEach R R_refl R_trans). intros subject.
        apply (steps_bind R R_trans); [apply (steps_gets R R_refl)|intros latest]. apply IH.
Qed.

Lemma built_loadFromJson (filepath : string) : steps R (loadFromJson filepath).
Proof using R_refl R_trans R_clear R_built.
  unfold loadFromJson.
  apply (steps_bind R R_trans); [apply (steps_gets R R_refl)|].
  intros [[content|data]|]; try apply (steps_raise R R_refl).
  apply (steps_bind R R_trans); [apply steps_modify, R_clear|intros _].
  apply (steps_bind R R_trans).
  - destruct data; simpl;
      first [apply (steps_ret R R_refl) | apply (steps_raise R R_refl)].
  - intros l. apply (steps_forEach R R_refl R_trans). intros entry.
    apply built_loadEntry.
Qed.

Lemma built_loadFromCsv (JSON_text : JsVal -> string) (filepath : string) :
  steps R (loadFromCsv JSON_text filepath).
Proof using R_refl R_trans R_clear R_built.
  unfold loadFromCsv, readText.
  apply (steps_bind R R_trans).
  - apply (steps_bind R R_trans); [apply (steps_gets R R_refl)|].
    intros [[content|data]|];
      first [apply (steps_ret R R_refl) | apply (steps_raise R R_refl)].
  - intros content.
    apply (steps_bind R R_trans); [apply steps_modify, R_clear|intros _].
    apply (steps_forEach R R_refl R_trans). intros line. unfold loadCsvLine.
    apply built_construct.
Qed.

Lemma built_saveToJson (saveLocation : string) : steps R (saveToJson saveLocation).
Proof using R_files.
  unfold saveToJson. apply steps_modify. intros st. apply R_files.
Qed.

End Built.

Lemma keepsTidy_frame (f : State -> State) :
  (forall st, classData (f st) = classData st) -> forall st, keepsTidy st (f st).
Proof. intros Hf st H. unfold tidy_ok. now rewrite Hf. Qed.

Lemma keepsTidy_built (st : State)
    (a0 a1 a2 a3 a4 a5 a6 a7 a8 a9 a10 : JsVal) (cls : ClassObj) :
  new_Class a0 a1 a2 a3 a4 a5 a6 a7 a8 a9 a10 = Ok cls ->
  keepsTidy st (with_classData (classData st ++ [cls]) st).
Proof.
  intros Hnew H. unfold tidy_ok. cbn [classData with_classData].
  apply Forall_app. split; [exact H|]. constructor; [|constructor].
  destruct (new_Class_strings _ _ _ _ _ _ _ _ _ _ _ _ Hnew)
    as (Hid & Hattrs & Htitle & Hinstr & Htimes).
  unfold tidyRecord.
  split; [exact (cleanOrEmpty_tidy _ _ Hid)|].
  split; [exact (cleanOrEmpty_tidy _ _ Htitle)|].
  split; [exact (cleanOrEmpty_tidy _ _ Hinstr)|].
  split; [exact (cleanOrEmpty_tidy _ _ Htimes)|].
  exact (attributes_value_tidy _ _ Hattrs).
Qed.

(** X25. Tidy strings are an invariant of the collection.  If every
    record of the collection has tidy strings (no line break in the
    course ID, title, instructor, times or any attribute, no white space
    at their ends), then so has every record after any of the methods
    that store or carry records, whether the method returns or throws
    and whatever the server or the file holds. *)
Theorem tidy_strings_invariant :
  (forall classInfo st,
     tidy_ok st -> tidy_ok (snd (createAndSaveClass classInfo st))) /\
  (forall http fuel subjectCode term st,
     tidy_ok st -> tidy_ok (snd (getCourseData http fuel subjectCode term st))) /\
  (forall http st, tidy_ok st -> tidy_ok (snd (getTermsAndSubjects http st))) /\
  (forall filepath st, tidy_ok st -> tidy_ok (snd (loadFromJson filepath st))) /\
  (forall JSON_text filepath st,
     tidy_ok st -> tidy_ok (snd (loadFromCsv JSON_text filepath st))) /\
  (forall saveLocation st,
     tidy_ok st -> tidy_ok (snd (saveToJson saveLocation st))).
Proof.
  assert (Kr : forall st, keepsTidy st st) by (intros st H; exact H).
  assert (Kt : forall a b c, keepsTidy a b -> keepsTidy b c -> keepsTidy a c)
    by (unfold keepsTidy; auto).
  assert (Kreq : forall st l, keepsTidy st (with_requests (requests st ++ l) st))
    by (intros; apply (keepsTidy_frame (fun st => _ st)); reflexivity).
  assert (Kclock : forall st t, keepsTidy st (with_clock t st))
    by (intros; apply (keepsTidy_frame (fun st => _ st)); reflexivity).
  assert (Krate : forall st r, keepsTidy st (with_rateLimit r st))
    by (intros; apply (keepsTidy_frame (fun st => _ st)); reflexivity).
  assert (Kdata : forall st d, keepsTidy st (with_courselistData d st))
    by (intros; apply (keepsTidy_frame (fun st => _ st)); reflexivity).
  assert (Kfiles : forall st fs, keepsTidy st (with_files fs st))
    by (intros; apply (keepsTidy_frame (fun st => _ st)); reflexivity).
  assert (Kclear : forall st, keepsTidy st (with_classData [] st))
    by (intros st _; constructor).
  split; [|split; [|split; [|split; [|split]]]].
  - intros classInfo st.
    apply (built_createAndSaveClass keepsTidy Kr keepsTidy_built).
  - intros http fuel subjectCode term st.
    apply (built_getCourseData keepsTidy Kr Kt Kreq Kclock Krate Kdata
             keepsTidy_built).
  - intros http st.
    apply (steps_getTermsAndSubjects keepsTidy Kr Kt Kreq Kclock Krate Kdata).
  - intros filepath st.
    apply (built_loadFromJson keepsTidy Kr Kt Kclear keepsTidy_built).
  - intros JSON_text filepath st.
    apply (built_loadFromCsv keepsTidy Kr Kt Kclear keepsTidy_built).
  - intros saveLocation st. apply (built_saveToJson keepsTidy Kfiles).
Qed.

Lemma filter_none {A} (p : A -> bool) (l : list A) :
  (forall x, In x l -> p x = false) -> List.filter p l = [].
Proof.
  induction l as [|x l IH]; intros H; simpl; [reflexivity|].
  rewrite (H x (or_introl eq_refl)). apply IH. intros y Hy. apply H. now right.
Qed.

Lemma find_none {A} (p : A -> bool) (l : list A) :
  (forall x, In x l -> p x = false) -> find p l = None.
Proof.
  induction l as [|x l IH]; intros H; simpl; [reflexivity|].
  rewrite (H x (or_introl eq_refl)). apply IH. intros y Hy. apply H. now right.
Qed.

(** X26. Text is stored cleaned, so it has to be asked for cleaned.
    On a tidy collection, a query by course ID, instructor, times or
    attribute whose argument has a line break in it or white space at
    either end finds nothing, even when a record was built from exactly
    that text. *)
Theorem text_queries_need_tidy_text (text : string) (st : State) :
  tidy_ok st ->
  ~ tidy text ->
  findClassByCourseID text st = None /\
  findClassesByInstructor text st = [] /\
  findClassesByTimes text st = [] /\
  findClassesByAttribute text st = [].
Proof.
  intros Hok Hn. unfold tidy_ok in Hok. rewrite List.Forall_forall in Hok.
  unfold findClassByCourseID, findClassesByInstructor, findClassesByTimes,
    findClassesByAttribute.
  rewrite collectByAttribute_filter. cbn [app].
  split; [|split; [|split]];
    first [apply find_none | apply filter_none];
    intros c Hc; destruct (Hok c Hc) as (Hid & _ & Hinstr & Htimes & Hattrs);
    apply not_true_is_false; intros E; apply Hn.
  - apply String.eqb_eq in E. now subst.
  - apply String.eqb_eq in E. now subst.
  - apply String.eqb_eq in E. now subst.
  - apply existsb_eqb_In in E. rewrite List.Forall_forall in Hattrs. auto.
Qed.

Lemma text_queries_example :
  let cls := mkClass (Int 10102) "BIOL 101" ["C100"] "Intro Biology" "Smith"
               (Some (Int 3)) "MWF 9-9:50" (Int 30) (Int 25) (Int 5)
               (VStr "OPEN") in
  let st := with_classData [cls] (initial "abcdef@wm.edu" 1700000000000 ∅) in
  findClassesByInstructor "Smith " st = [].
Proof.
  intros cls st.
  refine (proj1 (proj2 (text_queries_need_tidy_text "Smith " st _ _))).
  - apply List.Forall_cons; [|apply List.Forall_nil].
    unfold tidyRecord.
    cbn [cls _courseID _title _instructor _times _attributes].
    repeat split; try (vm_compute; reflexivity).
    apply List.Forall_cons; [|apply List.Forall_nil].
    repeat split; vm_compute; reflexivity.
  - intros (_ & _ & H). discriminate H.
Defined.
